(** * google-authorize: the OAuth2 helper of [src/index.js], embedded and verified

    The class [GoogleAuthorize] of [src/index.js] is a chain of Node.js
    callbacks: read the credentials file, read the token cache, and on a cache
    miss ask the user for a code, exchange it and store the token.  The
    embedding keeps that shape:

    - [JS]: the fragment of JavaScript values and coercions the class uses;
    - [Host]: the interface of what the class calls but does not define
      ([fs], [JSON], the OAuth2 client of google-auth-library);
    - [GoogleAuthorize]: the five methods, written in a state-and-exception
      monad over an event loop; an operation in flight carries the callback
      the source gave it, and the lines the user types are part of the state;
    - [MemHost]: an in-memory host, used to run the class on concrete inputs. *)

From stdpp Require Import base strings list gmap pretty.
From Stdlib Require Import ZArith Lia Ascii.

Local Open Scope string_scope.
Local Open Scope list_scope.
Local Open Scope nat_scope.
Local Set Warnings "-register-all".

(** ** JavaScript values *)

Module JS.

(** Values as the class sees them.  Arrays are dense (no holes); numbers are
    the integral ones; objects are property lists, the first binding of a key
    being the property's value. *)
Inductive value : Type :=
  | VUndefined
  | VNull
  | VBool (b : bool)
  | VNum (n : Z)
  | VStr (s : string)
  | VArr (elems : list value)
  | VObj (props : list (string * value)).

(** Error objects: [name], the optional [code] that system errors carry, and
    [message]. *)
Record error : Type := mkError {
  name : string;
  code : option string;
  message : string
}.

#[global] Instance error_eq_dec : EqDecision error.
Proof. solve_decision. Defined.

(** [new Error(message)] *)
Definition Error (msg : string) : error := mkError "Error" None msg.

(** The [TypeError] of reading property [p] of [undefined] or [null].  The
    message text differs between engine versions; nothing depends on it. *)
Definition TypeError (p : string) : error :=
  mkError "TypeError" None ("Cannot read property '" +:+ p +:+ "' of undefined").

(** [Error.prototype.toString] *)
Definition error_toString (e : error) : string :=
  if decide (name e = "") then message e
  else if decide (message e = "") then name e
  else name e +:+ ": " +:+ message e.

(** [Array.isArray] *)
Definition isArray (v : value) : bool :=
  match v with VArr _ => true | _ => false end.

(** Truthiness of a value, and of a string or [undefined] as [process.env] and
    an optional string argument hold them. *)
Definition truthy (v : value) : bool :=
  match v with
  | VUndefined | VNull => false
  | VBool b => b
  | VNum n => negb (n =? 0)%Z
  | VStr s => negb (String.eqb s "")
  | VArr _ | VObj _ => true
  end.

Definition truthy_str (o : option string) : bool :=
  match o with
  | Some s => negb (String.eqb s "")
  | None => false
  end.

(** [a || b] on such operands: [a] when it is truthy, else [b]. *)
Definition or_else {A} (t : A → bool) (a b : A) : A := if t a then a else b.

Definition join (sep : string) (l : list string) : string :=
  match l with
  | [] => ""
  | x :: xs => fold_left (λ acc y, acc +:+ sep +:+ y) xs x
  end.

(** [ToString], as string concatenation applies it to its operand. *)
Fixpoint toString (v : value) : string :=
  match v with
  | VUndefined => "undefined"
  | VNull => "null"
  | VBool true => "true"
  | VBool false => "false"
  | VNum n => pretty n
  | VStr s => s
  | VArr l =>
      join "," (map (λ x, match x with
                          | VUndefined | VNull => ""
                          | _ => toString x
                          end) l)
  | VObj _ => "[object Object]"
  end.

(** [ToString] of a string or [undefined]. *)
Definition toString_str (o : option string) : string :=
  match o with Some s => s | None => "undefined" end.

Fixpoint lookup_prop (p : string) (props : list (string * value)) : option value :=
  match props with
  | [] => None
  | (k, v) :: rest => if String.eqb k p then Some v else lookup_prop p rest
  end.

(** [v.p]: a [TypeError] on [undefined] and [null], the property's value on an
    object that has it, [undefined] otherwise. *)
Definition get (v : value) (p : string) : error + value :=
  match v with
  | VUndefined | VNull => inl (TypeError p)
  | VObj props => inr (default VUndefined (lookup_prop p props))
  | _ => inr VUndefined
  end.

(** [v[0]] *)
Definition get0 (v : value) : error + value :=
  match v with
  | VUndefined | VNull => inl (TypeError "0")
  | VArr l => inr (default VUndefined (head l))
  | VStr (String c _) => inr (VStr (String c ""))
  | VObj props => inr (default VUndefined (lookup_prop "0" props))
  | _ => inr VUndefined
  end.

End JS.
Export JS.

(** ** The host: what the class calls and does not define *)

(** The OAuth2 client object of google-auth-library, as far as the class
    touches it: the three constructor arguments, and the [credentials] field,
    [None] until the class assigns it. *)
Record client : Type := mkClient {
  clientId : value;
  clientSecret : value;
  redirectUrl : value;
  credentials : option value
}.

Definition set_credentials (v : value) (c : client) : client :=
  mkClient (clientId c) (clientSecret c) (redirectUrl c) (Some v).

(** The options object given to [generateAuthUrl]. *)
Record auth_opts : Type := mkOpts {
  access_type : string;
  scope : list string
}.

(** File system, [JSON] and the OAuth2 library.  [fs] is the state of the file
    system; reading does not change it, [mkdirSync] changes it when it
    succeeds, and [writeFile] leaves whatever the host leaves, with the error
    its callback receives. *)
Class Host : Type := {
  fs : Type;
  fs_readFile : fs → string → error + string;
  fs_mkdirSync : fs → string → error + fs;
  fs_writeFile : fs → string → string → fs * option error;
  JSON_parse : string → error + value;
  JSON_stringify : value → string;
  generateAuthUrl : client → auth_opts → string;
  getToken : client → string → error + value
}.

(** ** The class *)

Module GoogleAuthorize.

(** The fields the constructor sets on [this]. *)
Record instance : Type := mkInstance {
  SCOPES : list string;
  TOKEN_DIR : string;
  TOKEN_PATH : string;
  credentialsPath : string
}.

(** An argument of [console.log]. *)
Inductive logarg : Type :=
  | LStr (s : string)
  | LErr (e : error).

(** What [resolve] is called with: the client, or (line 58) the promise that
    [_authorize] returned. *)
Inductive resolution : Type :=
  | WithClient (c : client)
  | WithPromise.

(** What happens, in order: the calls the class makes on its environment, the
    completion of the write it started, and an exception leaving a callback. *)
Inductive event : Type :=
  | ReadFile (path : string)
  | ConsoleError (line : string)
  | ConsoleLog (args : list logarg)
  | Question (prompt : string)
  | Close
  | GetToken (code : string)
  | MkdirSync (path : string)
  | WriteFile (path data : string)
  | WriteFileDone (path : string) (err : option error)
  | CallResolve (r : resolution)
  | CallReject (e : error)
  | Uncaught (e : error).

(** A promise: pending, locked to the promise of [_authorize], or settled. *)
Inductive promise : Type :=
  | Pending
  | Follows
  | Fulfilled (c : client)
  | Rejected (e : error).

(** An asynchronous operation in flight, together with the callback the source
    gave it; each carries the operation's arguments and the variables that
    its callback captured. *)
Inductive task : Type :=
  | ReadCredentials (path : string)
  | ReadToken (path : string) (oauth2Client : client)
  | AskCode (oauth2Client : client)
  | ExchangeCode (oauth2Client : client) (code : string)
  | WriteToken (path data : string).

Section Methods.
Context `{host : Host}.

(** The process: file system, the lines the user will type, the calls made so
    far (oldest first), the operations in flight (oldest first), the one
    OAuth2 client object once it exists, and the promises of [authorize] and of
    [_authorize]. *)
Record state : Type := mkState {
  disk : fs;
  stdin : list string;
  trace : list event;
  queue : list task;
  heap : option client;
  outer : promise;
  inner : promise
}.

(** Computations that may throw. *)
Definition M (A : Type) : Type := state → (error + A) * state.

#[global] Instance M_ret : MRet M := λ A a st, (inr a, st).
#[global] Instance M_bind : MBind M := λ A B f m st,
  match m st with
  | (inr a, st') => f a st'
  | (inl e, st') => (inl e, st')
  end.

Definition throw {A} (e : error) : M A := λ st, (inl e, st).

Definition lift {A} (r : error + A) : M A :=
  match r with inl e => throw e | inr a => mret a end.

Definition try_catch {A} (body : M A) (handler : error → M A) : M A := λ st,
  match body st with
  | (inl e, st') => handler e st'
  | r => r
  end.

Definition emit (e : event) : M unit := λ st,
  (inr (), mkState (disk st) (stdin st) (trace st ++ [e])%list (queue st)
                   (heap st) (outer st) (inner st)).

Definition enqueue (t : task) : M unit := λ st,
  (inr (), mkState (disk st) (stdin st) (trace st) (queue st ++ [t])%list
                   (heap st) (outer st) (inner st)).

Definition set_disk (d : fs) (st : state) : state :=
  mkState d (stdin st) (trace st) (queue st) (heap st) (outer st) (inner st).

Definition set_heap (c : client) : M unit := λ st,
  (inr (), mkState (disk st) (stdin st) (trace st) (queue st)
                   (Some c) (outer st) (inner st)).

Definition set_outer (p : promise) : M unit := λ st,
  (inr (), mkState (disk st) (stdin st) (trace st) (queue st)
                   (heap st) p (inner st)).

Definition set_inner (p : promise) : M unit := λ st,
  (inr (), mkState (disk st) (stdin st) (trace st) (queue st)
                   (heap st) (outer st) p).

(** *** The environment's calls *)

Definition console_error (line : string) : M unit := emit (ConsoleError line).
Definition console_log (args : list logarg) : M unit := emit (ConsoleLog args).

(** [fs.mkdirSync(path)]: throws the host's error, or creates the directory. *)
Definition make_directory (path : string) : M unit := λ st,
  match fs_mkdirSync (disk st) path with
  | inl err => (inl err, st)
  | inr d => (inr (), set_disk d st)
  end.

Definition mkdirSync (path : string) : M unit :=
  emit (MkdirSync path) ;; make_directory path.

(** [new auth.OAuth2(clientId, clientSecret, redirectUrl)] *)
Definition new_OAuth2 (clientId clientSecret redirectUrl : value) : M client :=
  let c := mkClient clientId clientSecret redirectUrl None in
  set_heap c ;; mret c.

(** [oauth2Client.credentials = v]; the updated object is the one every later
    use of [oauth2Client] sees. *)
Definition assign_credentials (oauth2Client : client) (v : value) : M client :=
  let c := set_credentials v oauth2Client in
  set_heap c ;; mret c.

(** [resolve] and [reject] of the promise that [authorize] returns, and of the
    one that [_authorize] returns.  Only the first call on a promise counts. *)
Definition settle_outer (p : promise) : M unit := λ st,
  match outer st with
  | Pending => set_outer p st
  | _ => (inr (), st)
  end.

Definition settle_inner (p : promise) : M unit := λ st,
  match inner st with
  | Pending => set_inner p st
  | _ => (inr (), st)
  end.

Definition resolve_outer : M unit :=
  emit (CallResolve WithPromise) ;; settle_outer Follows.

Definition reject_outer (e : error) : M unit :=
  emit (CallReject e) ;; settle_outer (Rejected e).

Definition resolve_inner (c : client) : M unit :=
  emit (CallResolve (WithClient c)) ;; settle_inner (Fulfilled c).

Definition reject_inner (e : error) : M unit :=
  emit (CallReject e) ;; settle_inner (Rejected e).

(** [new Promise(executor)]: an exception of the executor rejects the promise. *)
Definition new_Promise (reject : error → M unit) (executor : M unit) : M unit :=
  try_catch executor reject.

(** *** The constructor, lines 21-38 *)

Definition base_url : string := "https://www.googleapis.com/auth/".

(** [v.forEach(f)], [f] updating the array it pushes to. *)
Definition forEach (v : value) (f : value → list string → list string)
    (acc : list string) : error + list string :=
  match v with
  | VArr l => inr (fold_left (λ a x, f x a) l acc)
  | _ => inl (TypeError "forEach")
  end.

Definition constructor (env : gmap string string) (scopes : value)
    (credentialsPath : option string) : M instance :=
  if negb (isArray scopes) then
    throw (Error "Initialize with array of scope names.")
  else
    _scopes ← lift (forEach (or_else truthy scopes (VArr []))
                      (λ scope _scopes, (_scopes ++ [base_url +:+ toString scope])%list)
                      []);
    let TOKEN_DIR :=
      toString_str (or_else truthy_str
                      (or_else truthy_str (env !! "HOME") (env !! "HOMEPATH"))
                      (env !! "USERPROFILE"))
      +:+ "/.credentials/" in
    let TOKEN_PATH := TOKEN_DIR +:+ "googleapis.json" in
    mret (mkInstance _scopes TOKEN_DIR TOKEN_PATH
            (toString_str (or_else truthy_str credentialsPath (Some "credentials.json")))).

(** *** storeToken, lines 129-141 *)

Definition storeToken (this : instance) (token : value) : M unit :=
  try_catch (mkdirSync (TOKEN_DIR this))
    (λ err, if decide (code err ≠ Some "EEXIST") then throw err else mret ()) ;;
  emit (WriteFile (TOKEN_PATH this) (JSON_stringify token)) ;;
  enqueue (WriteToken (TOKEN_PATH this) (JSON_stringify token)) ;;
  console_log [LStr ("Token stored to " +:+ TOKEN_PATH this)].

(** The callback of [fs.writeFile], line 137. *)
Definition writeFile_callback (err : option error) : M unit :=
  match err with
  | Some e => throw e
  | None => mret ()
  end.

(** *** getNewToken, lines 100-123 *)

(** The callback of [oauth2Client.getToken], lines 112-121. *)
Definition getToken_callback (this : instance) (oauth2Client : client)
    (r : error + value) : M unit :=
  match r with
  | inl err =>
      console_log [LStr "Error while trying to retrieve access token"; LErr err] ;;
      reject_inner err
  | inr token =>
      oauth2Client ← assign_credentials oauth2Client token;
      storeToken this token ;;
      resolve_inner oauth2Client
  end.

(** The callback of [rl.question], lines 110-122. *)
Definition question_callback (oauth2Client : client) (code : string) : M unit :=
  emit Close ;;
  emit (GetToken code) ;;
  enqueue (ExchangeCode oauth2Client code).

Definition getNewToken (this : instance) (oauth2Client : client) : M unit :=
  let authUrl := generateAuthUrl oauth2Client (mkOpts "offline" (SCOPES this)) in
  console_log [LStr "Authorize this app by visiting this url: "; LStr authUrl] ;;
  emit (Question "Enter the code from that page here: ") ;;
  enqueue (AskCode oauth2Client).

(** *** _authorize, lines 70-88 *)

(** The callback of the cache read, lines 79-86. *)
Definition readToken_callback (this : instance) (oauth2Client : client)
    (r : error + string) : M unit :=
  match r with
  | inl err => getNewToken this oauth2Client
  | inr token =>
      v ← lift (JSON_parse token);
      oauth2Client ← assign_credentials oauth2Client v;
      resolve_inner oauth2Client
  end.

Definition _authorize (this : instance) (credentials : value) : M unit :=
  installed ← lift (get credentials "installed");
  clientSecret ← lift (get installed "client_secret");
  installed ← lift (get credentials "installed");
  clientId ← lift (get installed "client_id");
  installed ← lift (get credentials "installed");
  redirect_uris ← lift (get installed "redirect_uris");
  redirectUrl ← lift (get0 redirect_uris);
  oauth2Client ← new_OAuth2 clientId clientSecret redirectUrl;
  new_Promise reject_inner
    (emit (ReadFile (TOKEN_PATH this)) ;;
     enqueue (ReadToken (TOKEN_PATH this) oauth2Client)).

(** *** authorize, lines 46-61 *)

Definition processClientSecrets (this : instance) (r : error + string) : M unit :=
  match r with
  | inl err =>
      console_error ("Error loading credentials.json file: " +:+ error_toString err) ;;
      reject_outer err
  | inr content =>
      credentials ← lift (JSON_parse content);
      _authorize this credentials ;;
      resolve_outer
  end.

Definition authorize (this : instance) : M unit :=
  new_Promise reject_outer
    (emit (ReadFile (credentialsPath this)) ;;
     enqueue (ReadCredentials (credentialsPath this))).

(** *** The event loop *)

(** A callback runs to its end; an exception that leaves it is uncaught. *)
Definition run_callback (cb : M unit) (st : state) : state :=
  match cb st with
  | (inr _, st') => st'
  | (inl e, st') => (emit (Uncaught e) st').2
  end.

Definition pop (st : state) : state :=
  mkState (disk st) (stdin st) (trace st) (tail (queue st))
          (heap st) (outer st) (inner st).

Definition read_line (st : state) : state :=
  mkState (disk st) (tail (stdin st)) (trace st) (queue st)
          (heap st) (outer st) (inner st).

(** One turn: the oldest operation in flight completes and its callback runs.
    There is no turn when nothing is in flight, or when the operation is the
    question and the user has typed no line. *)
Definition step (this : instance) (st : state) : option state :=
  match queue st with
  | [] => None
  | ReadCredentials path :: _ =>
      Some (run_callback (processClientSecrets this (fs_readFile (disk st) path))
              (pop st))
  | ReadToken path oauth2Client :: _ =>
      Some (run_callback
              (readToken_callback this oauth2Client (fs_readFile (disk st) path))
              (pop st))
  | AskCode oauth2Client :: _ =>
      match stdin st with
      | [] => None
      | code :: _ =>
          Some (run_callback (question_callback oauth2Client code)
                  (read_line (pop st)))
      end
  | ExchangeCode oauth2Client code :: _ =>
      Some (run_callback
              (getToken_callback this oauth2Client (getToken oauth2Client code))
              (pop st))
  | WriteToken path data :: _ =>
      let '(d, err) := fs_writeFile (disk st) path data in
      Some (run_callback
              (emit (WriteFileDone path err) ;; writeFile_callback err)
              (set_disk d (pop st)))
  end.

Fixpoint run (fuel : nat) (this : instance) (st : state) : state :=
  match fuel with
  | O => st
  | S fuel' =>
      match step this st with
      | None => st
      | Some st' => run fuel' this st'
      end
  end.

(** A fresh process, and a call of [authorize()] in it followed by [fuel]
    turns of the loop. *)
Definition boot (d : fs) (lines : list string) : state :=
  mkState d lines [] [] None Pending Pending.

Definition exec (fuel : nat) (this : instance) (d : fs) (lines : list string) : state :=
  run fuel this (run_callback (authorize this) (boot d lines)).

(** The state of the promise that [authorize()] returned. *)
Definition outcome (st : state) : promise :=
  match outer st with
  | Follows => inner st
  | p => p
  end.

(** *** Reading a run *)

(** A credentials document with the three fields that [_authorize] reads. *)
Definition installed_app (credentials cid csec uri : value) : Prop :=
  ∃ installed uris : value,
    get credentials "installed" = inr installed
    ∧ get installed "client_secret" = inr csec
    ∧ get installed "client_id" = inr cid
    ∧ get installed "redirect_uris" = inr uris
    ∧ get0 uris = inr uri.

(** The cache directory is there after [mkdirSync]: created, which leaves the
    file system [d1], or found to exist already. *)
Definition cache_dir_ready (d : fs) (dir : string) (d1 : fs) : Prop :=
  fs_mkdirSync d dir = inr d1
  ∨ ∃ err : error,
      fs_mkdirSync d dir = inl err ∧ code err = Some "EEXIST" ∧ d1 = d.

(** The calls of the interactive path: printing, prompting, closing the
    prompt and exchanging a code. *)
Definition interactive (e : event) : bool :=
  match e with
  | ConsoleLog _ | Question _ | Close | GetToken _ => true
  | _ => false
  end.

(** The calls of the token store. *)
Definition touches_store (e : event) : bool :=
  match e with
  | MkdirSync _ | WriteFile _ _ | WriteFileDone _ _ => true
  | _ => false
  end.

Definition is_reject (e : event) : bool :=
  match e with CallReject _ => true | _ => false end.

(** The codes exchanged, and the writes issued, in order. *)
Definition exchanges (tr : list event) : list string :=
  omap (λ e, match e with GetToken code => Some code | _ => None end) tr.

Definition writes (tr : list event) : list (string * string) :=
  omap (λ e, match e with WriteFile path data => Some (path, data) | _ => None end) tr.

(** The log line of [storeToken], and the completion of a write to [path]. *)
Definition is_stored_log (this : instance) (e : event) : bool :=
  match e with
  | ConsoleLog [LStr s] => String.eqb s ("Token stored to " +:+ TOKEN_PATH this)
  | _ => false
  end.

Definition is_write_done (path : string) (e : event) : bool :=
  match e with
  | WriteFileDone p _ => String.eqb p path
  | _ => false
  end.

(** Index of the first event that satisfies [p]. *)
Fixpoint position (p : event → bool) (tr : list event) : option nat :=
  match tr with
  | [] => None
  | e :: rest => if p e then Some 0 else S <$> position p rest
  end.

(** "[storeToken] logs the path after the write to it has completed": the
    completion comes first in the trace. *)
Definition logged_after_write (this : instance) (tr : list event) : Prop :=
  ∃ i j : nat,
    position (is_write_done (TOKEN_PATH this)) tr = Some i
    ∧ position (is_stored_log this) tr = Some j
    ∧ i < j.

(** The file-system calls stay on the three paths of [this]: reads on the
    credentials path and the cache path, [mkdirSync] on the cache directory,
    writes on the cache path.  The same for the operations in flight. *)
Definition confined_event (this : instance) (e : event) : bool :=
  match e with
  | ReadFile p => String.eqb p (credentialsPath this) || String.eqb p (TOKEN_PATH this)
  | MkdirSync p => String.eqb p (TOKEN_DIR this)
  | WriteFile p _ | WriteFileDone p _ => String.eqb p (TOKEN_PATH this)
  | _ => true
  end.

Definition confined_task (this : instance) (t : task) : bool :=
  match t with
  | ReadCredentials p => String.eqb p (credentialsPath this)
  | ReadToken p _ | WriteToken p _ => String.eqb p (TOKEN_PATH this)
  | _ => true
  end.

(** The calls that settle the promise of [_authorize] or reject that of
    [authorize]: [reject(err)] and [resolve(oauth2Client)]. *)
Definition is_settle (e : event) : bool :=
  match e with
  | CallReject _ | CallResolve (WithClient _) => true
  | _ => false
  end.

Definition settle_calls (tr : list event) : nat :=
  sum_list_with (λ e, if is_settle e then 1 else 0) tr.



(** Where the promises stand, by the operation in flight: before the
    credentials are read both are pending; from the cache read to the exchange
    the outer promise follows the inner one, which is pending; in all of these
    no settling call has been made.  At the end, and while the write is in
    flight, at most one has been made, and none exactly when the promise of
    [authorize()] is still pending. *)
Definition coherent (st : state) : Prop :=
  match queue st with
  | [ReadCredentials _] =>
      outer st = Pending ∧ inner st = Pending ∧ settle_calls (trace st) = 0
  | [ReadToken _ _] | [AskCode _] | [ExchangeCode _ _] =>
      outer st = Follows ∧ inner st = Pending ∧ settle_calls (trace st) = 0
  | [] | [WriteToken _ _] =>
      settle_calls (trace st) ≤ 1
      ∧ (settle_calls (trace st) = 0 ↔ outcome st = Pending)
  | _ => False
  end.

Definition confined (this : instance) (st : state) : bool :=
  forallb (confined_event this) (trace st) && forallb (confined_task this) (queue st).

(** As long as no call of the token store is in the trace, the file system is
    [d0] and no write is in flight. *)
Definition untouched (d0 : fs) (st : state) : Prop :=
  forallb (λ e, negb (touches_store e)) (trace st) = true →
  disk st = d0
  ∧ forallb (λ t, match t with WriteToken _ _ => false | _ => true end) (queue st)
    = true.

(** What has become of the typed [lines], by the operation in flight: up to
    the question nothing is consumed and nothing exchanged; while the exchange
    is in flight the first line, and only it, has been consumed and is the one
    exchange made; afterwards it is one or the other. *)
Definition input_account (lines : list string) (st : state) : Prop :=
  match queue st with
  | [ReadCredentials _] | [ReadToken _ _] | [AskCode _] =>
      stdin st = lines ∧ exchanges (trace st) = []
  | [ExchangeCode _ a] =>
      lines = a :: stdin st ∧ exchanges (trace st) = [a]
  | [] | [WriteToken _ _] =>
      (stdin st = lines ∧ exchanges (trace st) = [])
      ∨ ∃ a : string, lines = a :: stdin st ∧ exchanges (trace st) = [a]
  | _ => False
  end.

End Methods.
End GoogleAuthorize.

(** ** An in-memory host *)

(** A host to run the class on: files kept in an association list and
    directories in a list, a file system that may be mounted read-only, a
    JSON reader and printer for [value], and an OAuth2 endpoint that knows one
    authorization code. *)
Module MemHost.

Record memfs : Type := mkFs {
  files : list (string * string);
  dirs : list string;
  read_only : bool
}.

Definition system_error (c : string) (syscall path : string) : error :=
  mkError "Error" (Some c) (c +:+ ": " +:+ syscall +:+ " '" +:+ path +:+ "'").

Fixpoint content_of (path : string) (l : list (string * string)) : option string :=
  match l with
  | [] => None
  | (p, data) :: rest => if String.eqb p path then Some data else content_of path rest
  end.

Definition is_dir (d : memfs) (path : string) : bool :=
  existsb (String.eqb path) (dirs d).

Definition readFile (d : memfs) (path : string) : error + string :=
  match content_of path (files d) with
  | Some content => inr content
  | None =>
      if is_dir d path then inl (system_error "EISDIR" "read" path)
      else inl (system_error "ENOENT" "open" path)
  end.

Definition mkdir (d : memfs) (path : string) : error + memfs :=
  if is_dir d path || bool_decide (is_Some (content_of path (files d))) then
    inl (system_error "EEXIST" "mkdir" path)
  else if read_only d then inl (system_error "EROFS" "mkdir" path)
  else inr (mkFs (files d) (path :: dirs d) (read_only d)).

Definition writeFile (d : memfs) (path data : string) : memfs * option error :=
  if is_dir d path then (d, Some (system_error "EISDIR" "open" path))
  else if read_only d then (d, Some (system_error "EROFS" "open" path))
  else (mkFs ((path, data) :: filter (λ f, f.1 ≠ path) (files d))
             (dirs d) (read_only d),
        None).

(** *** JSON text *)

Definition quote : ascii := "034"%char.
Definition backslash : ascii := "092"%char.
Definition newline : ascii := "010"%char.
Definition tab : ascii := "009"%char.
Definition cr : ascii := "013"%char.

Fixpoint escape (s : string) : string :=
  match s with
  | EmptyString => ""
  | String c r =>
      if Ascii.eqb c quote then String backslash (String quote (escape r))
      else if Ascii.eqb c backslash then String backslash (String backslash (escape r))
      else if Ascii.eqb c newline then String backslash (String "n" (escape r))
      else if Ascii.eqb c tab then String backslash (String "t" (escape r))
      else if Ascii.eqb c cr then String backslash (String "r" (escape r))
      else String c (escape r)
  end.

Definition quoted (s : string) : string :=
  String quote (escape s) +:+ String quote "".

(** [JSON.stringify]: properties whose value is [undefined] are left out, and
    [undefined] elsewhere is written [null]. *)
Fixpoint stringify (v : value) : string :=
  match v with
  | VUndefined | VNull => "null"
  | VBool true => "true"
  | VBool false => "false"
  | VNum n => pretty n
  | VStr s => quoted s
  | VArr l => "[" +:+ join "," (map stringify l) +:+ "]"
  | VObj props =>
      "{" +:+
      join "," (omap (λ '(k, x), match x with
                                 | VUndefined => None
                                 | _ => Some (quoted k +:+ ":" +:+ stringify x)
                                 end) props)
      +:+ "}"
  end.

Definition is_ws (c : ascii) : bool :=
  Ascii.eqb c " " || Ascii.eqb c newline || Ascii.eqb c tab || Ascii.eqb c cr.

Fixpoint skip_ws (s : string) : string :=
  match s with
  | String c r => if is_ws c then skip_ws r else s
  | EmptyString => s
  end.

Definition digit (c : ascii) : option Z :=
  let n := Z.of_nat (nat_of_ascii c) in
  if ((48 <=? n) && (n <=? 57))%Z then Some (n - 48)%Z else None.

Fixpoint read_digits (acc : Z) (s : string) : Z * string :=
  match s with
  | String c r =>
      match digit c with
      | Some k => read_digits (10 * acc + k) r
      | None => (acc, s)
      end
  | EmptyString => (acc, s)
  end.

(** An integer: no leading zero, no fraction, no exponent (such numbers are
    outside [value], and are refused). *)
Definition read_number (s : string) : option (Z * string) :=
  let '(neg, s) := match s with
                   | String "-" r => (true, r)
                   | _ => (false, s)
                   end in
  match s with
  | String c r =>
      match digit c with
      | Some k =>
          let '(n, rest) := if (k =? 0)%Z then (0%Z, r) else read_digits k r in
          match rest with
          | String c' _ =>
              if Ascii.eqb c' "." || Ascii.eqb c' "e" || Ascii.eqb c' "E"
                 || bool_decide (is_Some (digit c'))
              then None
              else Some (if neg then (- n)%Z else n, rest)
          | EmptyString => Some (if neg then (- n)%Z else n, rest)
          end
      | None => None
      end
  | EmptyString => None
  end.

(** The characters after an opening quote, up to the closing one. *)
Fixpoint read_string (s : string) : option (string * string) :=
  match s with
  | EmptyString => None
  | String c r =>
      if Ascii.eqb c quote then Some ("", r)
      else if Ascii.eqb c backslash then
        match r with
        | String e r' =>
            let unescaped :=
              if Ascii.eqb e quote then Some quote
              else if Ascii.eqb e backslash then Some backslash
              else if Ascii.eqb e "/" then Some "/"%char
              else if Ascii.eqb e "n" then Some newline
              else if Ascii.eqb e "t" then Some tab
              else if Ascii.eqb e "r" then Some cr
              else None in
            match unescaped, read_string r' with
            | Some c', Some (body, rest) => Some (String c' body, rest)
            | _, _ => None
            end
        | EmptyString => None
        end
      else if (Z.of_nat (nat_of_ascii c) <? 32)%Z then None
      else
        match read_string r with
        | Some (body, rest) => Some (String c body, rest)
        | None => None
        end
  end.

Definition read_literal (lit : string) (v : value) (s : string) :
    option (value * string) :=
  if String.prefix lit s
  then Some (v, String.substring (String.length lit)
                  (String.length s - String.length lit) s)
  else None.

Fixpoint read_value (fuel : nat) (s : string) : option (value * string) :=
  match fuel with
  | O => None
  | S fuel' =>
      match skip_ws s with
      | String "n" _ as s' => read_literal "null" VNull s'
      | String "t" _ as s' => read_literal "true" (VBool true) s'
      | String "f" _ as s' => read_literal "false" (VBool false) s'
      | String "[" r =>
          match skip_ws r with
          | String "]" r' => Some (VArr [], r')
          | r' => '(l, rest) ← read_elements fuel' r'; Some (VArr l, rest)
          end
      | String "{" r =>
          match skip_ws r with
          | String "}" r' => Some (VObj [], r')
          | r' => '(l, rest) ← read_members fuel' r'; Some (VObj l, rest)
          end
      | String c r as s' =>
          if Ascii.eqb c quote then
            '(body, rest) ← read_string r; Some (VStr body, rest)
          else
            '(n, rest) ← read_number s'; Some (VNum n, rest)
      | EmptyString => None
      end
  end
with read_elements (fuel : nat) (s : string) : option (list value * string) :=
  match fuel with
  | O => None
  | S fuel' =>
      '(v, rest) ← read_value fuel' s;
      match skip_ws rest with
      | String "," r => '(l, rest') ← read_elements fuel' r; Some (v :: l, rest')
      | String "]" r => Some ([v], r)
      | _ => None
      end
  end
with read_members (fuel : nat) (s : string) : option (list (string * value) * string) :=
  match fuel with
  | O => None
  | S fuel' =>
      match skip_ws s with
      | String c r =>
          if Ascii.eqb c quote then
            '(k, rest) ← read_string r;
            match skip_ws rest with
            | String ":" r' =>
                '(v, rest') ← read_value fuel' r';
                match skip_ws rest' with
                | String "," r'' =>
                    '(l, rest'') ← read_members fuel' r''; Some ((k, v) :: l, rest'')
                | String "}" r'' => Some ([(k, v)], r'')
                | _ => None
                end
            | _ => None
            end
          else None
      | EmptyString => None
      end
  end.

(** A later binding of a repeated key replaces the earlier one. *)
Fixpoint last_wins (v : value) : value :=
  match v with
  | VArr l => VArr (map last_wins l)
  | VObj props =>
      VObj (fold_right (λ '(k, x) acc,
              if bool_decide (is_Some (lookup_prop k acc)) then acc
              else (k, last_wins x) :: acc) [] props)
  | v => v
  end.

Definition SyntaxError (text : string) : error :=
  mkError "SyntaxError" None ("Unexpected token in JSON: " +:+ text).

(** [JSON.parse]: one value, with nothing but white space after it. *)
Definition parse (text : string) : error + value :=
  match read_value (S (String.length text)) text with
  | Some (v, rest) =>
      match skip_ws rest with
      | EmptyString => inr (last_wins v)
      | _ => inl (SyntaxError text)
      end
  | None => inl (SyntaxError text)
  end.

(** *** The OAuth2 library *)

(** The authorization URL: the endpoint, then the options and the client's
    identity as a query string (not percent-encoded here). *)
Definition authUrl (c : client) (opts : auth_opts) : string :=
  "https://accounts.google.com/o/oauth2/auth?access_type=" +:+ access_type opts
  +:+ "&scope=" +:+ join " " (scope opts)
  +:+ "&response_type=code&client_id=" +:+ toString (clientId c)
  +:+ "&redirect_uri=" +:+ toString (redirectUrl c).

Definition good_code : string := "4/P7q7W91a-oMsCeLvIaQm6bTrgtp7".

Definition granted_token : value :=
  VObj [("access_token", VStr "ya29.a0AfH6SMBx");
        ("refresh_token", VStr "1//0gLkq3");
        ("token_type", VStr "Bearer");
        ("expiry_date", VNum 1500000003599)].

Definition invalid_grant : error := mkError "Error" None "invalid_grant".

(** The token endpoint grants a token for [good_code] and for nothing else. *)
Definition exchange (c : client) (code : string) : error + value :=
  if decide (code = good_code) then inr granted_token else inl invalid_grant.

#[export] Instance mem : Host := {|
  fs := memfs;
  fs_readFile := readFile;
  fs_mkdirSync := mkdir;
  fs_writeFile := writeFile;
  JSON_parse := parse;
  JSON_stringify := stringify;
  generateAuthUrl := authUrl;
  getToken := exchange
|}.

(** *** Sample inputs *)

Definition sample_env : gmap string string := {[ "HOME" := "/home/ada" ]}.

Definition sample_credentials : value :=
  VObj [("installed",
         VObj [("client_id", VStr "1234.apps.googleusercontent.com");
               ("project_id", VStr "sheets-demo");
               ("client_secret", VStr "s3cr3t");
               ("redirect_uris",
                VArr [VStr "urn:ietf:wg:oauth:2.0:oob"; VStr "http://localhost"])])].

Definition sample_client : client :=
  mkClient (VStr "1234.apps.googleusercontent.com") (VStr "s3cr3t")
           (VStr "urn:ietf:wg:oauth:2.0:oob") None.

(** The instance that [new GoogleAuthorize(['spreadsheets', 'drive'])] builds
    under [sample_env]. *)
Definition sample_this : GoogleAuthorize.instance :=
  GoogleAuthorize.mkInstance
    ["https://www.googleapis.com/auth/spreadsheets";
     "https://www.googleapis.com/auth/drive"]
    "/home/ada/.credentials/"
    "/home/ada/.credentials/googleapis.json"
    "credentials.json".

(** A disk with the credentials file only; one that also has the cache
    directory and a cached token; one whose cache file is not JSON; and the
    first one mounted read-only. *)
Definition disk_fresh : memfs :=
  mkFs [("credentials.json", stringify sample_credentials)] [] false.

Definition disk_cached : memfs :=
  mkFs [("credentials.json", stringify sample_credentials);
        ("/home/ada/.credentials/googleapis.json", stringify granted_token)]
       ["/home/ada/.credentials/"] false.

Definition disk_corrupt : memfs :=
  mkFs [("credentials.json", stringify sample_credentials);
        ("/home/ada/.credentials/googleapis.json", "{ access_token: ")]
       ["/home/ada/.credentials/"] false.

Definition disk_read_only : memfs :=
  mkFs [("credentials.json", stringify sample_credentials)] [] true.

Definition disk_empty : memfs := mkFs [] [] false.

(** Disks for the edges: a credentials file that is not JSON; one that is an
    empty object; one whose [installed] has an empty [redirect_uris] and
    nothing else, beside a cached token; and a disk where the cache path is a
    directory. *)
Definition disk_not_json : memfs :=
  mkFs [("credentials.json", "client_id=1234")] [] false.

Definition disk_no_installed : memfs :=
  mkFs [("credentials.json", "{}")] [] false.

Definition bare_credentials : value :=
  VObj [("installed", VObj [("redirect_uris", VArr [])])].

Definition disk_bare : memfs :=
  mkFs [("credentials.json", stringify bare_credentials);
        ("/home/ada/.credentials/googleapis.json", stringify granted_token)]
       ["/home/ada/.credentials/"] false.

Definition disk_cache_is_dir : memfs :=
  mkFs [("credentials.json", stringify sample_credentials)]
       ["/home/ada/.credentials/"; "/home/ada/.credentials/googleapis.json"]
       false.

End MemHost.

(** ** Verification *)

Import GoogleAuthorize.

(** *** The constructor *)

Section Constructor.
Context `{host : Host}.

(** Pushing [f x] for each [x] in turn builds the mapped list. *)
Lemma forEach_push (f : value → string) (l : list value) (acc : list string) :
  forEach (VArr l) (λ x a, (a ++ [f x])%list) acc = inr (acc ++ (f <$> l))%list.
Proof.
  unfold forEach. f_equal.
  revert acc. induction l as [|x l IH]; intros acc; simpl.
  - by rewrite app_nil_r.
  - rewrite IH. by rewrite <- app_assoc.
Qed.

Lemma constructor_array (env : gmap string string) (l : list value)
    (cp : option string) (st : state) :
  constructor env (VArr l) cp st =
  (inr (mkInstance
          ((λ scope, base_url +:+ toString scope) <$> l)
          (toString_str (or_else truthy_str
                           (or_else truthy_str (env !! "HOME") (env !! "HOMEPATH"))
                           (env !! "USERPROFILE")) +:+ "/.credentials/")
          ((toString_str (or_else truthy_str
                            (or_else truthy_str (env !! "HOME") (env !! "HOMEPATH"))
                            (env !! "USERPROFILE")) +:+ "/.credentials/")
           +:+ "googleapis.json")
          (toString_str (or_else truthy_str cp (Some "credentials.json")))),
   st).
Proof.
  unfold constructor. cbn [isArray negb].
  change (or_else truthy (VArr l) (VArr [])) with (VArr l).
  unfold mbind, M_bind, lift.
  rewrite forEach_push. reflexivity.
Qed.

(** C1. For every array of scope short-names, the constructor succeeds and
    [this.SCOPES] is the input list with each name prefixed by
    ['https://www.googleapis.com/auth/']: same length, and at every index the
    prefixed name of the input at that index. *)
Theorem constructor_prefixes_scopes (env : gmap string string)
    (names : list string) (cp : option string) (st : state) :
  ∃ this : instance,
    constructor env (VArr (VStr <$> names)) cp st = (inr this, st)
    ∧ SCOPES this = (λ n, "https://www.googleapis.com/auth/" +:+ n) <$> names
    ∧ length (SCOPES this) = length names
    ∧ ∀ (i : nat) (n : string),
        names !! i = Some n →
        SCOPES this !! i = Some ("https://www.googleapis.com/auth/" +:+ n).
Proof.
  eexists. split; [apply constructor_array|].
  cbn [SCOPES]. rewrite <- list_fmap_compose.
  split; [reflexivity|]. split.
  - by rewrite length_fmap.
  - intros i n Hi. rewrite list_lookup_fmap, Hi. reflexivity.
Qed.

(** C3. For every value that is not an array, the constructor throws
    [Error('Initialize with array of scope names.')] and leaves the process as
    it found it: no call on the environment is made, the file system is
    untouched and nothing is in flight. *)
Theorem constructor_rejects_non_array (env : gmap string string)
    (scopes : value) (cp : option string) (st : state) :
  isArray scopes = false →
  constructor env scopes cp st =
  (inl (Error "Initialize with array of scope names."), st).
Proof.
  intros Hna. unfold constructor. rewrite Hna. reflexivity.
Qed.

(** C10. When none of [HOME], [HOMEPATH] and [USERPROFILE] is defined, the
    constructor (given an array of scopes) does not fail, and the token
    directory and cache path are the literal ["undefined/.credentials/"] and
    ["undefined/.credentials/googleapis.json"]. *)
Theorem constructor_without_home (env : gmap string string) (l : list value)
    (cp : option string) (st : state) :
  env !! "HOME" = None →
  env !! "HOMEPATH" = None →
  env !! "USERPROFILE" = None →
  ∃ this : instance,
    constructor env (VArr l) cp st = (inr this, st)
    ∧ TOKEN_DIR this = "undefined/.credentials/"
    ∧ TOKEN_PATH this = "undefined/.credentials/googleapis.json".
Proof.
  intros H1 H2 H3. eexists. split; [apply constructor_array|].
  rewrite H1, H2, H3. split; reflexivity.
Qed.


(** X2. The home directory is the first of [HOME], [HOMEPATH] and
    [USERPROFILE] that is defined and not the empty string; an empty [HOME] is
    passed over like a missing one, and when the first two give nothing
    [USERPROFILE] is taken as it is, so that an empty [USERPROFILE] puts the
    cache directory at [/.credentials/]. *)
Theorem constructor_home_precedence (env : gmap string string) (l : list value)
    (cp : option string) (st : state) :
  ∃ this : instance,
    constructor env (VArr l) cp st = (inr this, st)
    ∧ (∀ h : string,
         env !! "HOME" = Some h → h ≠ "" →
         TOKEN_DIR this = h +:+ "/.credentials/")
    ∧ (∀ p : string,
         env !! "HOME" = None ∨ env !! "HOME" = Some "" →
         env !! "HOMEPATH" = Some p → p ≠ "" →
         TOKEN_DIR this = p +:+ "/.credentials/")
    ∧ (∀ u : string,
         env !! "HOME" = None ∨ env !! "HOME" = Some "" →
         env !! "HOMEPATH" = None ∨ env !! "HOMEPATH" = Some "" →
         env !! "USERPROFILE" = Some u →
         TOKEN_DIR this = u +:+ "/.credentials/").
Proof.
  assert (∀ h : string, h ≠ "" → truthy_str (Some h) = true) as Htrue.
  { intros h Hh. cbn. by destruct (String.eqb_spec h ""). }
  assert (∀ o : option string, o = None ∨ o = Some "" → truthy_str o = false)
    as Hfalse by (by intros o [-> | ->]).
  eexists. split; [apply constructor_array|]. cbn [TOKEN_DIR].
  split_and!.
  - intros h Hh Hne. rewrite Hh. unfold or_else at 2.
    rewrite (Htrue h Hne). unfold or_else. by rewrite (Htrue h Hne).
  - intros p Hh Hp Hne. unfold or_else at 2.
    rewrite (Hfalse _ Hh), Hp. unfold or_else. by rewrite (Htrue p Hne).
  - intros u Hh Hp Hu. unfold or_else at 2.
    rewrite (Hfalse _ Hh). unfold or_else. by rewrite (Hfalse _ Hp), Hu.
Qed.


End Constructor.

(** *** The event loop, turn by turn *)

Section Turns.
Context `{host : Host}.
Implicit Types (this : instance) (st : state) (d : fs) (c : client).

Ltac js :=
  unfold step, run_callback, processClientSecrets, _authorize, readToken_callback,
    getNewToken, question_callback, getToken_callback, storeToken,
    writeFile_callback, authorize, new_Promise, new_OAuth2, assign_credentials,
    resolve_outer, reject_outer, resolve_inner, reject_inner, settle_outer,
    settle_inner, mkdirSync, make_directory, console_log, console_error,
    try_catch, lift, throw, emit, enqueue, set_heap, set_outer, set_inner,
    set_disk, pop, read_line, mbind, M_bind, mret, M_ret;
  cbn [disk stdin trace queue heap outer inner tail fst snd app].

Lemma run_halt (n : nat) this st : step this st = None → run n this st = st.
Proof. intros Hs. destruct n; simpl; [done|]. by rewrite Hs. Qed.

Lemma run_turn (n : nat) this st st' :
  step this st = Some st' → run (S n) this st = run n this st'.
Proof. intros Hs. simpl. by rewrite Hs. Qed.

Lemma step_idle this d lines tr h o i :
  step this (mkState d lines tr [] h o i) = None.
Proof. reflexivity. Qed.

(** [authorize()] itself only starts the read of the credentials file. *)
Lemma exec_start (fuel : nat) this d lines :
  exec fuel this d lines =
  run fuel this
    (mkState d lines [ReadFile (credentialsPath this)]
       [ReadCredentials (credentialsPath this)] None Pending Pending).
Proof. reflexivity. Qed.

Lemma step_credentials_error this d lines tr path h i err :
  fs_readFile d path = inl err →
  step this (mkState d lines tr [ReadCredentials path] h Pending i) =
  Some (mkState d lines
          (tr ++ [ConsoleError ("Error loading credentials.json file: "
                                +:+ error_toString err);
                  CallReject err])
          [] h (Rejected err) i).
Proof.
  intros Hr. js. rewrite Hr. js. rewrite <- app_assoc. reflexivity.
Qed.

Lemma step_credentials_ok this d lines tr path h i content creds cid csec uri :
  fs_readFile d path = inr content →
  JSON_parse content = inr creds →
  installed_app creds cid csec uri →
  step this (mkState d lines tr [ReadCredentials path] h Pending i) =
  Some (mkState d lines
          (tr ++ [ReadFile (TOKEN_PATH this); CallResolve WithPromise])
          [ReadToken (TOKEN_PATH this) (mkClient cid csec uri None)]
          (Some (mkClient cid csec uri None)) Follows i).
Proof.
  intros Hr Hp (installed & uris & Hi & Hs & Hc & Hu & H0).
  js. rewrite Hr. js. rewrite Hp. js.
  rewrite Hi. js. rewrite Hs, Hc, Hu. js. rewrite H0. js.
  rewrite <- app_assoc. reflexivity.
Qed.

Lemma step_token_hit this d lines tr path c h o cached tok :
  fs_readFile d path = inr cached →
  JSON_parse cached = inr tok →
  step this (mkState d lines tr [ReadToken path c] h o Pending) =
  Some (mkState d lines
          (tr ++ [CallResolve (WithClient (set_credentials tok c))])
          [] (Some (set_credentials tok c)) o
          (Fulfilled (set_credentials tok c))).
Proof. intros Hr Hp. js. rewrite Hr. js. rewrite Hp. js. reflexivity. Qed.

Lemma step_token_corrupt this d lines tr path c h o i cached err :
  fs_readFile d path = inr cached →
  JSON_parse cached = inl err →
  step this (mkState d lines tr [ReadToken path c] h o i) =
  Some (mkState d lines (tr ++ [Uncaught err]) [] h o i).
Proof. intros Hr Hp. js. rewrite Hr. js. rewrite Hp. js. reflexivity. Qed.

Lemma step_token_miss this d lines tr path c h o i err :
  fs_readFile d path = inl err →
  step this (mkState d lines tr [ReadToken path c] h o i) =
  Some (mkState d lines
          (tr ++ [ConsoleLog
                    [LStr "Authorize this app by visiting this url: ";
                     LStr (generateAuthUrl c (mkOpts "offline" (SCOPES this)))];
                  Question "Enter the code from that page here: "])
          [AskCode c] h o i).
Proof.
  intros Hr. js. rewrite Hr. js. rewrite <- app_assoc. reflexivity.
Qed.

(** The question waits for as long as no line is typed. *)
Lemma step_question_waits this d tr c q h o i :
  step this (mkState d [] tr (AskCode c :: q) h o i) = None.
Proof. reflexivity. Qed.

Lemma step_question this d code lines tr c h o i :
  step this (mkState d (code :: lines) tr [AskCode c] h o i) =
  Some (mkState d lines (tr ++ [Close; GetToken code])
          [ExchangeCode c code] h o i).
Proof. js. rewrite <- app_assoc. reflexivity. Qed.

Lemma step_exchange_error this d lines tr c code h o err :
  getToken c code = inl err →
  step this (mkState d lines tr [ExchangeCode c code] h o Pending) =
  Some (mkState d lines
          (tr ++ [ConsoleLog [LStr "Error while trying to retrieve access token";
                              LErr err];
                  CallReject err])
          [] h o (Rejected err)).
Proof.
  intros Hg. js. rewrite Hg. js. rewrite <- app_assoc. reflexivity.
Qed.

(** *** storeToken *)

Lemma storeToken_created this token st d' :
  fs_mkdirSync (disk st) (TOKEN_DIR this) = inr d' →
  storeToken this token st =
  (inr (),
   mkState d' (stdin st)
     (trace st ++ [MkdirSync (TOKEN_DIR this);
                   WriteFile (TOKEN_PATH this) (JSON_stringify token);
                   ConsoleLog [LStr ("Token stored to " +:+ TOKEN_PATH this)]])
     (queue st ++ [WriteToken (TOKEN_PATH this) (JSON_stringify token)])
     (heap st) (outer st) (inner st)).
Proof.
  intros Hm. js. rewrite Hm. js. rewrite <- !app_assoc. reflexivity.
Qed.

Lemma storeToken_exists this token st err :
  fs_mkdirSync (disk st) (TOKEN_DIR this) = inl err →
  code err = Some "EEXIST" →
  storeToken this token st =
  (inr (),
   mkState (disk st) (stdin st)
     (trace st ++ [MkdirSync (TOKEN_DIR this);
                   WriteFile (TOKEN_PATH this) (JSON_stringify token);
                   ConsoleLog [LStr ("Token stored to " +:+ TOKEN_PATH this)]])
     (queue st ++ [WriteToken (TOKEN_PATH this) (JSON_stringify token)])
     (heap st) (outer st) (inner st)).
Proof.
  intros Hm Hc. js. rewrite Hm. js.
  destruct (decide (code err ≠ Some "EEXIST")) as [Hne|_]; [done|].
  js. rewrite <- !app_assoc. reflexivity.
Qed.

Lemma storeToken_fatal this token st err :
  fs_mkdirSync (disk st) (TOKEN_DIR this) = inl err →
  code err ≠ Some "EEXIST" →
  storeToken this token st =
  (inl err,
   mkState (disk st) (stdin st) (trace st ++ [MkdirSync (TOKEN_DIR this)])
     (queue st) (heap st) (outer st) (inner st)).
Proof.
  intros Hm Hc. js. rewrite Hm. js.
  destruct (decide (code err ≠ Some "EEXIST")) as [_|Heq]; [|done].
  reflexivity.
Qed.

Lemma cache_dir_ready_inv d dir d1 :
  cache_dir_ready d dir d1 →
  match fs_mkdirSync d dir with
  | inr d' => d1 = d'
  | inl e => code e = Some "EEXIST" ∧ d1 = d
  end.
Proof.
  intros [Hm | (err & Hm & Hc & ->)]; rewrite Hm; [reflexivity|by split].
Qed.

Lemma storeToken_ready this token st d1 :
  cache_dir_ready (disk st) (TOKEN_DIR this) d1 →
  storeToken this token st =
  (inr (),
   mkState d1 (stdin st)
     (trace st ++ [MkdirSync (TOKEN_DIR this);
                   WriteFile (TOKEN_PATH this) (JSON_stringify token);
                   ConsoleLog [LStr ("Token stored to " +:+ TOKEN_PATH this)]])
     (queue st ++ [WriteToken (TOKEN_PATH this) (JSON_stringify token)])
     (heap st) (outer st) (inner st)).
Proof.
  intros [Hm | (err & Hm & Hc & ->)].
  - by apply storeToken_created.
  - by eapply storeToken_exists.
Qed.

Lemma step_exchange_ok this d lines tr c code h o token d1 :
  getToken c code = inr token →
  cache_dir_ready d (TOKEN_DIR this) d1 →
  step this (mkState d lines tr [ExchangeCode c code] h o Pending) =
  Some (mkState d1 lines
          (tr ++ [MkdirSync (TOKEN_DIR this);
                  WriteFile (TOKEN_PATH this) (JSON_stringify token);
                  ConsoleLog [LStr ("Token stored to " +:+ TOKEN_PATH this)];
                  CallResolve (WithClient (set_credentials token c))])
          [WriteToken (TOKEN_PATH this) (JSON_stringify token)]
          (Some (set_credentials token c)) o
          (Fulfilled (set_credentials token c))).
Proof.
  intros Hg Hd.
  pose proof (storeToken_ready this token
                (mkState d lines tr [] (Some (set_credentials token c)) o Pending)
                d1 Hd) as Hs.
  unfold step, run_callback, getToken_callback, pop.
  cbn [disk stdin trace queue heap outer inner tail].
  rewrite Hg.
  unfold assign_credentials, set_heap, mbind, M_bind, mret, M_ret.
  cbn [disk stdin trace queue heap outer inner].
  rewrite Hs. js. rewrite <- app_assoc. reflexivity.
Qed.

Lemma step_exchange_fatal this d lines tr c answer h o i token err :
  getToken c answer = inr token →
  fs_mkdirSync d (TOKEN_DIR this) = inl err →
  code err ≠ Some "EEXIST" →
  step this (mkState d lines tr [ExchangeCode c answer] h o i) =
  Some (mkState d lines (tr ++ [MkdirSync (TOKEN_DIR this); Uncaught err]) []
          (Some (set_credentials token c)) o i).
Proof.
  intros Hg Hm Hc.
  pose proof (storeToken_fatal this token
                (mkState d lines tr [] (Some (set_credentials token c)) o i)
                err Hm Hc) as Hs.
  unfold step, run_callback, getToken_callback, pop.
  cbn [disk stdin trace queue heap outer inner tail].
  rewrite Hg.
  unfold assign_credentials, set_heap, mbind, M_bind, mret, M_ret.
  cbn [disk stdin trace queue heap outer inner].
  rewrite Hs. js. rewrite <- app_assoc. reflexivity.
Qed.

(** The write completes: the host's file system after it, the completion, and
    the error, if any, thrown by the callback. *)
Lemma step_write this d lines tr path data h o i :
  step this (mkState d lines tr [WriteToken path data] h o i) =
  Some (mkState (fs_writeFile d path data).1 lines
          (tr ++ WriteFileDone path (fs_writeFile d path data).2
              :: match (fs_writeFile d path data).2 with
                 | Some e => [Uncaught e]
                 | None => []
                 end)
          [] h o i).
Proof.
  unfold step. cbn [queue disk].
  destruct (fs_writeFile d path data) as [d' [e|]]; js;
    rewrite <- ?app_assoc; reflexivity.
Qed.

(** A successful exchange, then the completion of the write it started. *)
Lemma run_exchange_ok (n : nat) this d lines tr c answer h token d1 :
  getToken c answer = inr token →
  cache_dir_ready d (TOKEN_DIR this) d1 →
  run (S (S n)) this (mkState d lines tr [ExchangeCode c answer] h Follows Pending) =
  mkState (fs_writeFile d1 (TOKEN_PATH this) (JSON_stringify token)).1 lines
    (tr ++ [MkdirSync (TOKEN_DIR this);
            WriteFile (TOKEN_PATH this) (JSON_stringify token);
            ConsoleLog [LStr ("Token stored to " +:+ TOKEN_PATH this)];
            CallResolve (WithClient (set_credentials token c))]
        ++ WriteFileDone (TOKEN_PATH this)
             (fs_writeFile d1 (TOKEN_PATH this) (JSON_stringify token)).2
           :: match (fs_writeFile d1 (TOKEN_PATH this) (JSON_stringify token)).2 with
              | Some e => [Uncaught e]
              | None => []
              end)
    [] (Some (set_credentials token c)) Follows
    (Fulfilled (set_credentials token c)).
Proof.
  intros Hg Hd.
  erewrite run_turn; [|by eapply step_exchange_ok].
  erewrite run_turn; [|by apply step_write].
  rewrite run_halt by apply step_idle.
  by rewrite <- app_assoc.
Qed.

(** *** From [authorize()] to the cache read and to the exchange *)

Lemma exec_reaches_cache (n : nat) this d lines content creds cid csec uri :
  fs_readFile d (credentialsPath this) = inr content →
  JSON_parse content = inr creds →
  installed_app creds cid csec uri →
  exec (S n) this d lines =
  run n this
    (mkState d lines
       [ReadFile (credentialsPath this); ReadFile (TOKEN_PATH this);
        CallResolve WithPromise]
       [ReadToken (TOKEN_PATH this) (mkClient cid csec uri None)]
       (Some (mkClient cid csec uri None)) Follows Pending).
Proof.
  intros Hr Hp Hi. rewrite exec_start.
  erewrite run_turn; [|by eapply step_credentials_ok]. reflexivity.
Qed.

Lemma exec_reaches_exchange (n : nat) this d code lines content creds cid csec uri err :
  fs_readFile d (credentialsPath this) = inr content →
  JSON_parse content = inr creds →
  installed_app creds cid csec uri →
  fs_readFile d (TOKEN_PATH this) = inl err →
  exec (S (S (S n))) this d (code :: lines) =
  run n this
    (mkState d lines
       [ReadFile (credentialsPath this); ReadFile (TOKEN_PATH this);
        CallResolve WithPromise;
        ConsoleLog
          [LStr "Authorize this app by visiting this url: ";
           LStr (generateAuthUrl (mkClient cid csec uri None)
                   (mkOpts "offline" (SCOPES this)))];
        Question "Enter the code from that page here: ";
        Close; GetToken code]
       [ExchangeCode (mkClient cid csec uri None) code]
       (Some (mkClient cid csec uri None)) Follows Pending).
Proof.
  intros Hr Hp Hi Hm.
  erewrite exec_reaches_cache by eassumption.
  erewrite run_turn; [|by eapply step_token_miss].
  erewrite run_turn; [|by apply step_question].
  reflexivity.
Qed.

(** Without a typed line the run stops at the question, the promise pending. *)
Lemma exec_waits_for_code (n : nat) this d content creds cid csec uri err :
  fs_readFile d (credentialsPath this) = inr content →
  JSON_parse content = inr creds →
  installed_app creds cid csec uri →
  fs_readFile d (TOKEN_PATH this) = inl err →
  outcome (exec (S (S n)) this d []) = Pending
  ∧ queue (exec (S (S n)) this d []) = [AskCode (mkClient cid csec uri None)]
  ∧ last (trace (exec (S (S n)) this d []))
    = Some (Question "Enter the code from that page here: ").
Proof.
  intros Hr Hp Hi Hm.
  erewrite exec_reaches_cache by eassumption.
  erewrite run_turn; [|by eapply step_token_miss].
  rewrite run_halt by apply step_question_waits.
  repeat split.
Qed.

(** At most one operation is in flight at any time, so the order in which
    the loop completes operations is the only one there is. *)
Lemma step_one_in_flight this st st' :
  length (queue st) ≤ 1 →
  step this st = Some st' →
  length (queue st') ≤ 1.
Proof.
  destruct st as [d lines tr q h o i]. cbn [queue]. intros Hq.
  destruct q as [|t [|t' q]]; [done| |simpl in Hq; lia].
  destruct t; js;
    repeat (match goal with
            | |- context [fs_readFile ?a ?b] => destruct (fs_readFile a b)
            | |- context [JSON_parse ?a] => destruct (JSON_parse a)
            | |- context [get ?a ?b] => destruct (get a b)
            | |- context [get0 ?a] => destruct (get0 a)
            | |- context [getToken ?a ?b] => destruct (getToken a b)
            | |- context [fs_mkdirSync ?a ?b] => destruct (fs_mkdirSync a b)
            | |- context [fs_writeFile ?a ?b ?c] =>
                destruct (fs_writeFile a b c) as [? [?|]]
            | |- context [decide ?P] => destruct (decide P)
            | |- context [match ?l with [] => _ | _ :: _ => _ end] => destruct l
            | |- context [match ?x with Pending => _ | _ => _ end] => destruct x
            end; js);
    intros [= <-]; cbn [queue length app]; lia.
Qed.

Lemma run_one_in_flight (n : nat) this st :
  length (queue st) ≤ 1 → length (queue (run n this st)) ≤ 1.
Proof.
  revert st. induction n as [|n IH]; intros st Hq; simpl; [done|].
  destruct (step this st) as [st'|] eqn:Hs; [|done].
  apply IH. by eapply step_one_in_flight.
Qed.

(** X13. In every run of [authorize()], however long, at most one
    asynchronous operation is in flight at any time: each is started by the
    callback of the one before. *)
Lemma exec_one_in_flight (n : nat) this d lines :
  length (queue (exec n this d lines)) ≤ 1.
Proof. rewrite exec_start. by apply run_one_in_flight. Qed.

(** *** The claims about [authorize()] and [storeToken] *)

(** C2. With a credentials file that holds a client id, a secret and a
    redirect URI, and a cache file that is read successfully and whose content
    [JSON.parse] turns into [tok], [authorize()] resolves with the client built
    from the three fields, its [credentials] being [tok]; nothing is printed or
    asked, no code is exchanged, no line of input is consumed and the file
    system is as before. *)
Theorem authorize_cache_hit (fuel : nat) this d lines content creds cid csec uri
    cached tok :
  fs_readFile d (credentialsPath this) = inr content →
  JSON_parse content = inr creds →
  installed_app creds cid csec uri →
  fs_readFile d (TOKEN_PATH this) = inr cached →
  JSON_parse cached = inr tok →
  (2 ≤ fuel)%nat →
  outcome (exec fuel this d lines) = Fulfilled (mkClient cid csec uri (Some tok))
  ∧ trace (exec fuel this d lines) =
      [ReadFile (credentialsPath this); ReadFile (TOKEN_PATH this);
       CallResolve WithPromise;
       CallResolve (WithClient (mkClient cid csec uri (Some tok)))]
  ∧ forallb (λ e, negb (interactive e)) (trace (exec fuel this d lines)) = true
  ∧ stdin (exec fuel this d lines) = lines
  ∧ disk (exec fuel this d lines) = d
  ∧ queue (exec fuel this d lines) = [].
Proof.
  intros Hr Hp Hi Hc Ht Hfuel.
  destruct fuel as [|[|n]]; [lia..|].
  erewrite exec_reaches_cache by eassumption.
  erewrite run_turn; [|by eapply step_token_hit].
  rewrite run_halt by apply step_idle.
  repeat split.
Qed.

(** C4. If the read of the credentials file fails with [err], [authorize()]
    logs the error and rejects with [err]; the token store is not called (no
    [mkdirSync], no [writeFile]), the cache file is not even read, and the
    file system is as before. *)
Theorem authorize_credentials_unreadable (fuel : nat) this d lines err :
  fs_readFile d (credentialsPath this) = inl err →
  (1 ≤ fuel)%nat →
  outcome (exec fuel this d lines) = Rejected err
  ∧ trace (exec fuel this d lines) =
      [ReadFile (credentialsPath this);
       ConsoleError ("Error loading credentials.json file: " +:+ error_toString err);
       CallReject err]
  ∧ forallb (λ e, negb (touches_store e)) (trace (exec fuel this d lines)) = true
  ∧ disk (exec fuel this d lines) = d
  ∧ queue (exec fuel this d lines) = [].
Proof.
  intros Hr Hfuel.
  destruct fuel as [|n]; [lia|].
  rewrite exec_start.
  erewrite run_turn; [|by eapply step_credentials_error].
  rewrite run_halt by apply step_idle.
  repeat split.
Qed.

(** C5. With a readable credentials file and a cache file whose read fails,
    [authorize()] prints the authorization URL that [generateAuthUrl] makes of
    the offline access type and of all of [this.SCOPES], asks for the code,
    takes one line of input and exchanges exactly that line, once.  When the
    exchange returns a token and the cache directory is there, the promise is
    fulfilled and the one write issued is [JSON.stringify(token)] to
    [this.TOKEN_PATH], which the host carries out; and whenever the promise is
    fulfilled, that is how. *)
Theorem authorize_cache_miss (fuel : nat) this d answer lines content creds
    cid csec uri err :
  fs_readFile d (credentialsPath this) = inr content →
  JSON_parse content = inr creds →
  installed_app creds cid csec uri →
  fs_readFile d (TOKEN_PATH this) = inl err →
  (5 ≤ fuel)%nat →
  (∃ rest : list event,
      trace (exec fuel this d (answer :: lines)) =
        [ReadFile (credentialsPath this); ReadFile (TOKEN_PATH this);
         CallResolve WithPromise;
         ConsoleLog
           [LStr "Authorize this app by visiting this url: ";
            LStr (generateAuthUrl (mkClient cid csec uri None)
                    (mkOpts "offline" (SCOPES this)))];
         Question "Enter the code from that page here: ";
         Close; GetToken answer] ++ rest)
  ∧ exchanges (trace (exec fuel this d (answer :: lines))) = [answer]
  ∧ stdin (exec fuel this d (answer :: lines)) = lines
  ∧ (∀ (token : value) (d1 : fs),
        getToken (mkClient cid csec uri None) answer = inr token →
        cache_dir_ready d (TOKEN_DIR this) d1 →
        outcome (exec fuel this d (answer :: lines))
          = Fulfilled (mkClient cid csec uri (Some token))
        ∧ writes (trace (exec fuel this d (answer :: lines)))
          = [(TOKEN_PATH this, JSON_stringify token)]
        ∧ disk (exec fuel this d (answer :: lines))
          = (fs_writeFile d1 (TOKEN_PATH this) (JSON_stringify token)).1)
  ∧ (∀ c' : client,
        outcome (exec fuel this d (answer :: lines)) = Fulfilled c' →
        ∃ token : value,
          getToken (mkClient cid csec uri None) answer = inr token
          ∧ c' = mkClient cid csec uri (Some token)
          ∧ writes (trace (exec fuel this d (answer :: lines)))
            = [(TOKEN_PATH this, JSON_stringify token)]).
Proof.
  intros Hr Hp Hi Hm Hfuel.
  destruct fuel as [|[|[|[|[|n]]]]]; [lia..|].
  erewrite exec_reaches_exchange by eassumption.
  destruct (getToken (mkClient cid csec uri None) answer) as [e|token] eqn:Hg.
  { erewrite run_turn; [|by eapply step_exchange_error].
    rewrite run_halt by apply step_idle.
    split_and!; [eexists; reflexivity|reflexivity|reflexivity| |].
    - intros token d1 [=].
    - intros c' [=]. }
  destruct (fs_mkdirSync d (TOKEN_DIR this)) as [e|d'] eqn:Hd.
  - destruct (decide (code e = Some "EEXIST")) as [He|He].
    + erewrite run_exchange_ok; [|done|right; by exists e].
      destruct (fs_writeFile d (TOKEN_PATH this) (JSON_stringify token))
        as [dw [ew|]] eqn:Hw;
        (split_and!; [eexists; reflexivity|reflexivity|reflexivity| |]);
        [ intros token' d1 [=<-] Hready%cache_dir_ready_inv; rewrite Hd in Hready;
          destruct Hready as [_ ->]; rewrite ?Hw; split_and!; reflexivity
        | intros c' [=<-]; exists token; split_and!; reflexivity
        | intros token' d1 [=<-] Hready%cache_dir_ready_inv; rewrite Hd in Hready;
          destruct Hready as [_ ->]; rewrite ?Hw; split_and!; reflexivity
        | intros c' [=<-]; exists token; split_and!; reflexivity ].
    + erewrite run_turn; [|by eapply step_exchange_fatal].
      rewrite run_halt by apply step_idle.
      split_and!; [eexists; reflexivity|reflexivity|reflexivity| |].
      * intros token' d1 _ Hready%cache_dir_ready_inv. rewrite Hd in Hready.
        by destruct Hready.
      * intros c' [=].
  - erewrite run_exchange_ok; [|done|by left].
    destruct (fs_writeFile d' (TOKEN_PATH this) (JSON_stringify token))
      as [dw [ew|]] eqn:Hw;
      (split_and!; [eexists; reflexivity|reflexivity|reflexivity| |]);
      [ intros token' d1 [=<-] Hready%cache_dir_ready_inv; rewrite Hd in Hready;
        subst d1; rewrite ?Hw; split_and!; reflexivity
      | intros c' [=<-]; exists token; split_and!; reflexivity
      | intros token' d1 [=<-] Hready%cache_dir_ready_inv; rewrite Hd in Hready;
        subst d1; rewrite ?Hw; split_and!; reflexivity
      | intros c' [=<-]; exists token; split_and!; reflexivity ].
Qed.

(** C6. In the interactive path, if the exchange fails with [err], the error
    is logged and then [authorize()] rejects with [err].  There is one exchange
    and no second one, the client's [credentials] are not assigned, the token
    store is not called and the file system is as before. *)
Theorem authorize_exchange_fails (fuel : nat) this d answer lines content creds
    cid csec uri err xerr :
  fs_readFile d (credentialsPath this) = inr content →
  JSON_parse content = inr creds →
  installed_app creds cid csec uri →
  fs_readFile d (TOKEN_PATH this) = inl err →
  getToken (mkClient cid csec uri None) answer = inl xerr →
  4 ≤ fuel →
  outcome (exec fuel this d (answer :: lines)) = Rejected xerr
  ∧ (∃ before : list event,
        trace (exec fuel this d (answer :: lines)) =
          before ++ [GetToken answer;
                     ConsoleLog [LStr "Error while trying to retrieve access token";
                                 LErr xerr];
                     CallReject xerr])
  ∧ exchanges (trace (exec fuel this d (answer :: lines))) = [answer]
  ∧ heap (exec fuel this d (answer :: lines)) = Some (mkClient cid csec uri None)
  ∧ forallb (λ e, negb (touches_store e))
      (trace (exec fuel this d (answer :: lines))) = true
  ∧ disk (exec fuel this d (answer :: lines)) = d
  ∧ queue (exec fuel this d (answer :: lines)) = [].
Proof.
  intros Hr Hp Hi Hm Hg Hfuel.
  destruct fuel as [|[|[|[|n]]]]; [lia..|].
  erewrite exec_reaches_exchange by eassumption.
  erewrite run_turn; [|by eapply step_exchange_error].
  rewrite run_halt by apply step_idle.
  split_and!; try reflexivity.
  eexists [_; _; _; _; _; _]. reflexivity.
Qed.

(** C7. When [mkdirSync] fails in [storeToken]: if the error's code is
    ['EEXIST'] the failure is swallowed and [storeToken] goes on (it issues the
    write, logs, and returns normally, the file system untouched so far); if
    the code is anything else, or missing, the same error is thrown to the
    caller and no write is issued. *)
Theorem storeToken_mkdir_failure this (token : value) st (err : error) :
  fs_mkdirSync (disk st) (TOKEN_DIR this) = inl err →
  (code err = Some "EEXIST" →
     storeToken this token st =
     (inr (),
      mkState (disk st) (stdin st)
        (trace st ++ [MkdirSync (TOKEN_DIR this);
                      WriteFile (TOKEN_PATH this) (JSON_stringify token);
                      ConsoleLog [LStr ("Token stored to " +:+ TOKEN_PATH this)]])
        (queue st ++ [WriteToken (TOKEN_PATH this) (JSON_stringify token)])
        (heap st) (outer st) (inner st)))
  ∧ (code err ≠ Some "EEXIST" →
     storeToken this token st =
     (inl err,
      mkState (disk st) (stdin st) (trace st ++ [MkdirSync (TOKEN_DIR this)])
        (queue st) (heap st) (outer st) (inner st))).
Proof.
  intros Hm. split; intros Hc.
  - by eapply storeToken_exists.
  - by apply storeToken_fatal.
Qed.

(** C8, as the code has it.  Whenever [storeToken] returns normally, it has
    logged the destination path right after issuing the write and before the
    write completes: the write is still in flight when [storeToken] returns,
    and its completion, with or without an error, is a later turn of the event
    loop. *)
Theorem storeToken_logs_before_completion this (token : value) st st' :
  storeToken this token st = (inr (), st') →
  trace st' =
    trace st ++ [MkdirSync (TOKEN_DIR this);
                 WriteFile (TOKEN_PATH this) (JSON_stringify token);
                 ConsoleLog [LStr ("Token stored to " +:+ TOKEN_PATH this)]]
  ∧ queue st' = queue st ++ [WriteToken (TOKEN_PATH this) (JSON_stringify token)]
  ∧ (queue st = [] →
     ∃ (st'' : state) (werr : option error) (tl : list event),
       step this st' = Some st''
       ∧ trace st'' = trace st' ++ WriteFileDone (TOKEN_PATH this) werr :: tl).
Proof.
  intros Hs.
  assert (∃ d1, st' =
    mkState d1 (stdin st)
      (trace st ++ [MkdirSync (TOKEN_DIR this);
                    WriteFile (TOKEN_PATH this) (JSON_stringify token);
                    ConsoleLog [LStr ("Token stored to " +:+ TOKEN_PATH this)]])
      (queue st ++ [WriteToken (TOKEN_PATH this) (JSON_stringify token)])
      (heap st) (outer st) (inner st)) as [d1 ->].
  { destruct (fs_mkdirSync (disk st) (TOKEN_DIR this)) as [e|d'] eqn:Hm.
    - destruct (decide (code e = Some "EEXIST")) as [He|He].
      + rewrite (storeToken_exists _ _ _ _ Hm He) in Hs.
        injection Hs as <-. by eexists.
      + rewrite (storeToken_fatal _ _ _ _ Hm He) in Hs. discriminate.
    - rewrite (storeToken_created _ _ _ _ Hm) in Hs.
      injection Hs as <-. by eexists. }
  split_and!; [reflexivity..|].
  intros Hq. rewrite Hq. cbn [app trace].
  eexists _, _, _. split; [apply step_write|]. reflexivity.
Qed.

(** C9. If the cache file is read successfully but [JSON.parse] throws [perr]
    on its content, [perr] leaves the read callback uncaught: the promise of
    [authorize()] stays pending, [reject] is never called, and nothing of the
    interactive path happens (no URL, no question, no exchange). *)
Theorem authorize_corrupt_cache (fuel : nat) this d lines content creds cid csec
    uri cached perr :
  fs_readFile d (credentialsPath this) = inr content →
  JSON_parse content = inr creds →
  installed_app creds cid csec uri →
  fs_readFile d (TOKEN_PATH this) = inr cached →
  JSON_parse cached = inl perr →
  2 ≤ fuel →
  outcome (exec fuel this d lines) = Pending
  ∧ trace (exec fuel this d lines) =
      [ReadFile (credentialsPath this); ReadFile (TOKEN_PATH this);
       CallResolve WithPromise; Uncaught perr]
  ∧ forallb (λ e, negb (is_reject e)) (trace (exec fuel this d lines)) = true
  ∧ forallb (λ e, negb (interactive e)) (trace (exec fuel this d lines)) = true
  ∧ stdin (exec fuel this d lines) = lines
  ∧ queue (exec fuel this d lines) = [].
Proof.
  intros Hr Hp Hi Hc Ht Hfuel.
  destruct fuel as [|[|n]]; [lia..|].
  erewrite exec_reaches_cache by eassumption.
  erewrite run_turn; [|by eapply step_token_corrupt].
  rewrite run_halt by apply step_idle.
  split_and!; reflexivity.
Qed.

(** *** The other ways through [authorize()] *)

Lemma get_error (v : value) (p : string) (e : error) :
  get v p = inl e → e = TypeError p.
Proof. destruct v; cbn; congruence. Qed.

Lemma get0_error (v : value) (e : error) : get0 v = inl e → e = TypeError "0".
Proof. destruct v as [| | | |[|]| |]; cbn; congruence. Qed.

(** X4. If the credentials file is read but its content is not JSON, the
    error of [JSON.parse] leaves the callback uncaught: the promise of
    [authorize()] is never settled, [reject] is not called, the error is not
    logged, and the token cache is not even read. *)
Theorem authorize_credentials_not_json (fuel : nat) this d lines content perr :
  fs_readFile d (credentialsPath this) = inr content →
  JSON_parse content = inl perr →
  1 ≤ fuel →
  outcome (exec fuel this d lines) = Pending
  ∧ trace (exec fuel this d lines) = [ReadFile (credentialsPath this); Uncaught perr]
  ∧ queue (exec fuel this d lines) = []
  ∧ heap (exec fuel this d lines) = None
  ∧ disk (exec fuel this d lines) = d.
Proof.
  intros Hr Hp Hfuel. destruct fuel as [|n]; [lia|].
  rewrite exec_start.
  erewrite run_turn.
  2:{ js. rewrite Hr. js. rewrite Hp. js. reflexivity. }
  rewrite run_halt by apply step_idle.
  split_and!; reflexivity.
Qed.

(** X5. If the credentials parse but lack what [_authorize] reads through (no
    [installed], or no [redirect_uris] in it), the [TypeError] of the property
    access leaves the callback uncaught: the promise is never settled, no
    client is built and the token cache is not read. *)
Theorem authorize_credentials_shape_error (fuel : nat) this d lines content creds :
  fs_readFile d (credentialsPath this) = inr content →
  JSON_parse content = inr creds →
  (∀ cid csec uri : value, ¬ installed_app creds cid csec uri) →
  1 ≤ fuel →
  ∃ p : string,
    trace (exec fuel this d lines)
      = [ReadFile (credentialsPath this); Uncaught (TypeError p)]
    ∧ outcome (exec fuel this d lines) = Pending
    ∧ queue (exec fuel this d lines) = []
    ∧ heap (exec fuel this d lines) = None.
Proof.
  intros Hr Hp Hno Hfuel. destruct fuel as [|n]; [lia|].
  rewrite exec_start.
  assert (∃ p : string,
    step this
      (mkState d lines [ReadFile (credentialsPath this)]
         [ReadCredentials (credentialsPath this)] None Pending Pending)
    = Some (mkState d lines
              [ReadFile (credentialsPath this); Uncaught (TypeError p)]
              [] None Pending Pending)) as [p Hs].
  { js. rewrite Hr. js. rewrite Hp. js.
    destruct (get creds "installed") as [e|inst] eqn:Hi; js;
      [apply get_error in Hi as ->; by eexists|].
    destruct (get inst "client_secret") as [e|csec] eqn:Hs; js;
      [apply get_error in Hs as ->; by eexists|].
    destruct (get inst "client_id") as [e|cid] eqn:Hc; js;
      [apply get_error in Hc as ->; by eexists|].
    destruct (get inst "redirect_uris") as [e|uris] eqn:Hu; js;
      [apply get_error in Hu as ->; by eexists|].
    destruct (get0 uris) as [e|uri] eqn:H0; js;
      [apply get0_error in H0 as ->; by eexists|].
    exfalso. apply (Hno cid csec uri). by exists inst, uris. }
  exists p. rewrite (run_turn _ _ _ _ Hs).
  rewrite run_halt by apply step_idle.
  split_and!; reflexivity.
Qed.

(** X6. Nothing checks the three fields: credentials whose [installed] is an
    object and whose [redirect_uris] is an array are accepted, a missing
    [client_id] or [client_secret] and the first element of an empty
    [redirect_uris] being [undefined] in the client; with a cached token the
    promise is fulfilled with that client. *)
Theorem authorize_accepts_partial_credentials (fuel : nat) this d lines content
    props iprops uris cached tok :
  fs_readFile d (credentialsPath this) = inr content →
  JSON_parse content = inr (VObj props) →
  lookup_prop "installed" props = Some (VObj iprops) →
  lookup_prop "redirect_uris" iprops = Some (VArr uris) →
  fs_readFile d (TOKEN_PATH this) = inr cached →
  JSON_parse cached = inr tok →
  2 ≤ fuel →
  outcome (exec fuel this d lines)
  = Fulfilled (mkClient (default VUndefined (lookup_prop "client_id" iprops))
                 (default VUndefined (lookup_prop "client_secret" iprops))
                 (default VUndefined (head uris))
                 (Some tok)).
Proof.
  intros Hr Hp Hi Hu Hc Ht Hfuel.
  destruct fuel as [|[|n]]; [lia..|].
  erewrite exec_reaches_cache; [|eassumption..|].
  2:{ exists (VObj iprops), (VArr uris). cbn. rewrite Hi, Hu. done. }
  erewrite run_turn; [|by eapply step_token_hit].
  by rewrite run_halt by apply step_idle.
Qed.


(** X8. If the exchange returns a token but [mkdirSync] fails with a code
    other than ['EEXIST'], the error leaves the exchange callback uncaught
    after the token has been assigned to the client: [resolve] is never
    called, the promise stays pending, no write is issued and the file system
    is as before. *)
Theorem authorize_store_failure (fuel : nat) this d answer lines content creds
    cid csec uri err token merr :
  fs_readFile d (credentialsPath this) = inr content →
  JSON_parse content = inr creds →
  installed_app creds cid csec uri →
  fs_readFile d (TOKEN_PATH this) = inl err →
  getToken (mkClient cid csec uri None) answer = inr token →
  fs_mkdirSync d (TOKEN_DIR this) = inl merr →
  code merr ≠ Some "EEXIST" →
  4 ≤ fuel →
  outcome (exec fuel this d (answer :: lines)) = Pending
  ∧ (∃ before : list event,
        trace (exec fuel this d (answer :: lines))
          = before ++ [GetToken answer; MkdirSync (TOKEN_DIR this); Uncaught merr])
  ∧ settle_calls (trace (exec fuel this d (answer :: lines))) = 0
  ∧ heap (exec fuel this d (answer :: lines))
    = Some (mkClient cid csec uri (Some token))
  ∧ writes (trace (exec fuel this d (answer :: lines))) = []
  ∧ disk (exec fuel this d (answer :: lines)) = d
  ∧ queue (exec fuel this d (answer :: lines)) = [].
Proof.
  intros Hr Hp Hi Hm Hg Hd Hc Hfuel.
  destruct fuel as [|[|[|[|n]]]]; [lia..|].
  erewrite exec_reaches_exchange by eassumption.
  erewrite run_turn; [|by eapply step_exchange_fatal].
  rewrite run_halt by apply step_idle.
  split_and!; try reflexivity.
  eexists [_; _; _; _; _; _]. reflexivity.
Qed.

(** X9. If the token is granted and the cache directory is there but the
    write fails, [authorize()] has already logged ['Token stored to ...'] and
    fulfilled its promise with the authorized client; the write's error comes
    afterwards and leaves the write callback uncaught. *)
Theorem authorize_write_failure (fuel : nat) this d answer lines content creds
    cid csec uri err token d1 werr :
  fs_readFile d (credentialsPath this) = inr content →
  JSON_parse content = inr creds →
  installed_app creds cid csec uri →
  fs_readFile d (TOKEN_PATH this) = inl err →
  getToken (mkClient cid csec uri None) answer = inr token →
  cache_dir_ready d (TOKEN_DIR this) d1 →
  (fs_writeFile d1 (TOKEN_PATH this) (JSON_stringify token)).2 = Some werr →
  5 ≤ fuel →
  outcome (exec fuel this d (answer :: lines))
  = Fulfilled (mkClient cid csec uri (Some token))
  ∧ ∃ before : list event,
      trace (exec fuel this d (answer :: lines))
      = before ++ [ConsoleLog [LStr ("Token stored to " +:+ TOKEN_PATH this)];
                   CallResolve (WithClient (mkClient cid csec uri (Some token)));
                   WriteFileDone (TOKEN_PATH this) (Some werr);
                   Uncaught werr].
Proof.
  intros Hr Hp Hi Hm Hg Hd Hw Hfuel.
  destruct fuel as [|[|[|[|[|n]]]]]; [lia..|].
  erewrite exec_reaches_exchange by eassumption.
  erewrite run_exchange_ok by eassumption.
  rewrite Hw. split; [reflexivity|].
  eexists [_; _; _; _; _; _; _; _; _]. reflexivity.
Qed.

(** X10. What [storeToken] writes is what [_authorize] reads back.  After an
    interactive run that stored the token, on a host where the stored text
    reads back from the cache path, parses back to the token, and the
    credentials file still reads the same, a second [authorize()] is
    fulfilled with the same client and credentials as the first, and asks
    nothing. *)
Theorem authorize_again_hits_cache (fuel fuel' : nat) this d answer lines lines'
    content creds cid csec uri err token d1 :
  fs_readFile d (credentialsPath this) = inr content →
  JSON_parse content = inr creds →
  installed_app creds cid csec uri →
  fs_readFile d (TOKEN_PATH this) = inl err →
  getToken (mkClient cid csec uri None) answer = inr token →
  cache_dir_ready d (TOKEN_DIR this) d1 →
  fs_readFile (fs_writeFile d1 (TOKEN_PATH this) (JSON_stringify token)).1
    (credentialsPath this) = inr content →
  fs_readFile (fs_writeFile d1 (TOKEN_PATH this) (JSON_stringify token)).1
    (TOKEN_PATH this) = inr (JSON_stringify token) →
  JSON_parse (JSON_stringify token) = inr token →
  5 ≤ fuel → 2 ≤ fuel' →
  outcome (exec fuel this d (answer :: lines))
  = Fulfilled (mkClient cid csec uri (Some token))
  ∧ outcome (exec fuel' this (disk (exec fuel this d (answer :: lines))) lines')
    = Fulfilled (mkClient cid csec uri (Some token))
  ∧ forallb (λ e, negb (interactive e))
      (trace (exec fuel' this (disk (exec fuel this d (answer :: lines))) lines'))
    = true
  ∧ stdin (exec fuel' this (disk (exec fuel this d (answer :: lines))) lines')
    = lines'.
Proof.
  intros Hr Hp Hi Hm Hg Hd Hr2 Ht2 Hrt Hfuel Hfuel'.
  destruct fuel as [|[|[|[|[|n]]]]]; [lia..|].
  destruct fuel' as [|[|n']]; [lia..|].
  erewrite exec_reaches_exchange by eassumption.
  erewrite run_exchange_ok by eassumption.
  cbn [disk outcome outer inner].
  erewrite exec_reaches_cache by eassumption.
  erewrite run_turn; [|by eapply step_token_hit].
  rewrite run_halt by apply step_idle.
  split_and!; reflexivity.
Qed.


(** *** Every run *)

Ltac host_cases :=
  repeat (match goal with
          | |- context [fs_readFile ?a ?b] => destruct (fs_readFile a b)
          | |- context [JSON_parse ?a] => destruct (JSON_parse a)
          | |- context [get ?a ?b] => destruct (get a b)
          | |- context [get0 ?a] => destruct (get0 a)
          | |- context [getToken ?a ?b] => destruct (getToken a b)
          | |- context [fs_mkdirSync ?a ?b] => destruct (fs_mkdirSync a b)
          | |- context [fs_writeFile ?a ?b ?c] =>
              destruct (fs_writeFile a b c) as [? [?|]]
          | |- context [decide ?P] => destruct (decide P)
          | |- context [match ?l with [] => _ | _ :: _ => _ end] => destruct l
          | |- context [match ?x with Pending => _ | _ => _ end] => destruct x
          end; js).





(** Every path of a file-system call comes from [this]. *)
Lemma step_confined this st st' :
  confined this st = true → step this st = Some st' → confined this st' = true.
Proof.
  destruct st as [d lines tr q h o i]. unfold confined. cbn [trace queue].
  intros [Htr Hq]%andb_prop. destruct q as [|t q]; [done|].
  cbn [forallb] in Hq. apply andb_prop in Hq as [Ht Hq].
  destruct t; cbn [confined_task] in Ht; try apply String.eqb_eq in Ht; subst;
    js; host_cases; intros [= <-]; cbn [trace queue];
    rewrite ?forallb_app, ?Htr, ?Hq; cbn;
    rewrite ?String.eqb_refl, ?orb_true_r; reflexivity.
Qed.

(** X14. In every run of [authorize()], however long, the only files read are
    the credentials file and the token cache, the only directory created is
    [this.TOKEN_DIR] and the only file written is [this.TOKEN_PATH]. *)
Theorem authorize_confined (n : nat) this d lines :
  forallb (confined_event this) (trace (exec n this d lines)) = true.
Proof.
  assert (∀ st, confined this st = true → confined this (run n this st) = true)
    as Hrun.
  { induction n as [|n IH]; intros st Hc; cbn [run]; [done|].
    destruct (step this st) as [st'|] eqn:Hs; [|done].
    apply IH. by eapply step_confined. }
  rewrite exec_start.
  eapply proj1, andb_prop, Hrun.
  unfold confined. cbn. by rewrite !String.eqb_refl.
Qed.

(** The promises move with the chain of operations. *)
Lemma step_coherent this st st' :
  coherent st → step this st = Some st' → coherent st'.
Proof.
  destruct st as [d lines tr q h o i]. intros Hc. unfold coherent in Hc.
  cbn [trace queue outer inner] in Hc.
  destruct q as [|t [|t' q]]; [done| |by destruct t].
  destruct t.
  1-4: destruct Hc as (-> & -> & Hs); js; host_cases; intros [= <-];
    unfold coherent, outcome; cbn [trace queue outer inner];
    unfold settle_calls in *; rewrite ?sum_list_with_app, ?Hs; cbn;
    split_and?; try split; intros; first [done | lia].
  destruct Hc as [Hle Hiff]. unfold outcome in *.
  cbn [trace queue outer inner] in *.
  js; host_cases; intros [= <-]; unfold coherent, outcome;
    cbn [trace queue outer inner];
    unfold settle_calls in *; rewrite ?sum_list_with_app; cbn;
    rewrite ?Nat.add_0_r; done.
Qed.

Lemma coherent_settled st :
  coherent st →
  settle_calls (trace st) ≤ 1
  ∧ (settle_calls (trace st) = 0 ↔ outcome st = Pending).
Proof.
  unfold coherent, outcome.
  destruct (queue st) as [|[] [|]]; try done;
    intros (Ho & Hi & Hs); rewrite Ho, ?Hi, Hs; (split; [lia|done]).
Qed.

(** X15. In every run of [authorize()], however long, [reject(err)] and
    [resolve(oauth2Client)] are called at most once between them, and the
    promise of [authorize()] is pending exactly as long as neither has been
    called. *)
Theorem authorize_settles_once (n : nat) this d lines :
  settle_calls (trace (exec n this d lines)) ≤ 1
  ∧ (settle_calls (trace (exec n this d lines)) = 0
     ↔ outcome (exec n this d lines) = Pending).
Proof.
  assert (∀ st, coherent st → coherent (run n this st)) as Hrun.
  { induction n as [|n IH]; intros st Hc; cbn [run]; [done|].
    destruct (step this st) as [st'|] eqn:Hs; [|done].
    apply IH. by eapply step_coherent. }
  apply coherent_settled. rewrite exec_start. apply Hrun.
  unfold coherent. cbn. done.
Qed.

(** Only the token store changes the file system. *)
Lemma step_untouched d0 this st st' :
  untouched d0 st → step this st = Some st' → untouched d0 st'.
Proof.
  destruct st as [d lines tr q h o i]. unfold untouched.
  cbn [trace queue disk]. intros Hinv.
  destruct q as [|t q]; [done|].
  destruct t; js; host_cases; intros [= <-]; cbn [trace queue disk];
    rewrite ?forallb_app; cbn; rewrite ?andb_true_r, ?andb_false_r;
    try (intros [=]; fail);
    intros Htr; destruct (Hinv Htr) as [-> Hq]; cbn in Hq; try done;
    (split; [reflexivity|]); rewrite ?forallb_app, ?Hq; reflexivity.
Qed.

(** X16. In every run of [authorize()], however long: if no call of the token
    store ([mkdirSync], [writeFile]) has been made, the file system is exactly
    as it was. *)
Theorem authorize_leaves_disk (n : nat) this d lines :
  forallb (λ e, negb (touches_store e)) (trace (exec n this d lines)) = true →
  disk (exec n this d lines) = d.
Proof.
  assert (∀ st, untouched d st → untouched d (run n this st)) as Hrun.
  { induction n as [|n IH]; intros st Hc; cbn [run]; [done|].
    destruct (step this st) as [st'|] eqn:Hs; [|done].
    apply IH. by eapply step_untouched. }
  intros Htr. rewrite exec_start in *.
  eapply proj1, Hrun; [|exact Htr]. by intros _.
Qed.

(** The typed lines are consumed by the question only. *)
Lemma step_input_account lines this st st' :
  input_account lines st → step this st = Some st' → input_account lines st'.
Proof.
  destruct st as [d input tr q h o i]. intros Ha. unfold input_account in Ha.
  cbn [trace queue stdin] in Ha.
  destruct q as [|t [|t' q]]; [done| |by destruct t].
  destruct t.
  1-2: destruct Ha as [-> Hx]; js; host_cases; intros [= <-];
    unfold input_account, exchanges in *; cbn [trace queue stdin];
    rewrite ?omap_app, ?Hx; cbn; auto.
  - destruct Ha as [-> Hx]. js. destruct lines as [|a rest]; [done|].
    js. intros [= <-]. unfold input_account, exchanges in *.
    cbn [trace queue stdin]. rewrite ?omap_app, ?Hx. by cbn.
  - destruct Ha as [-> Hx]; js; host_cases; intros [= <-];
      unfold input_account, exchanges in *; cbn [trace queue stdin];
      rewrite ?omap_app, ?Hx; cbn; eauto.
  - js; host_cases; intros [= <-];
      unfold input_account, exchanges in *; cbn [trace queue stdin] in *;
      rewrite ?omap_app; cbn; rewrite ?app_nil_r; exact Ha.
Qed.

(** X17. In every run of [authorize()], however long, at most one typed line
    is consumed, the first one, and the codes exchanged are exactly the lines
    consumed: either nothing is consumed and nothing exchanged, or the first
    line is consumed and it is the one and only code exchanged. *)
Theorem authorize_input_account (n : nat) this d lines :
  (stdin (exec n this d lines) = lines
   ∧ exchanges (trace (exec n this d lines)) = [])
  ∨ ∃ a : string,
      lines = a :: stdin (exec n this d lines)
      ∧ exchanges (trace (exec n this d lines)) = [a].
Proof.
  assert (∀ st, input_account lines st → input_account lines (run n this st))
    as Hrun.
  { induction n as [|n IH]; intros st Hc; cbn [run]; [done|].
    destruct (step this st) as [st'|] eqn:Hs; [|done].
    apply IH. by eapply step_input_account. }
  assert (∀ st, input_account lines st →
            (stdin st = lines ∧ exchanges (trace st) = [])
            ∨ ∃ a : string, lines = a :: stdin st ∧ exchanges (trace st) = [a])
    as Hsum.
  { intros st. unfold input_account.
    destruct (queue st) as [|[] [|]]; try done; eauto. }
  rewrite exec_start. apply Hsum, Hrun. by split.
Qed.

End Turns.

(** ** The class at work on the in-memory host *)

Import MemHost.

(** [new GoogleAuthorize(['spreadsheets', 'drive'])] under [sample_env]. *)
Example constructor_sample :
  constructor sample_env (VArr [VStr "spreadsheets"; VStr "drive"]) None
              (boot disk_fresh [])
  = (inr sample_this, boot disk_fresh []).
Proof. reflexivity. Qed.

(** The reader undoes the printer on the sample documents, and refuses text
    that is not JSON. *)
Example parse_stringify_credentials :
  parse (stringify sample_credentials) = inr sample_credentials.
Proof. vm_compute. reflexivity. Qed.

Example parse_stringify_token :
  parse (stringify granted_token) = inr granted_token.
Proof. vm_compute. reflexivity. Qed.

Example parse_refuses_truncated_object :
  ∃ e : error, parse "{ access_token: " = inl e ∧ name e = "SyntaxError".
Proof. eexists. split; vm_compute; reflexivity. Qed.

Lemma sample_installed_app :
  installed_app sample_credentials
    (VStr "1234.apps.googleusercontent.com") (VStr "s3cr3t")
    (VStr "urn:ietf:wg:oauth:2.0:oob").
Proof. do 2 eexists. split_and!; reflexivity. Qed.

(** C3 at the string ['spreadsheets'] given where the array should be. *)
Lemma constructor_rejects_non_array_witness :
  isArray (VStr "spreadsheets") = false
  ∧ constructor sample_env (VStr "spreadsheets") None (boot disk_fresh [])
    = (inl (Error "Initialize with array of scope names."), boot disk_fresh []).
Proof.
  split; [reflexivity|].
  apply (constructor_rejects_non_array (host := mem) sample_env
           (VStr "spreadsheets") None (boot (host := mem) disk_fresh [])).
  reflexivity.
Defined.

(** C10 at the empty environment. *)
Lemma constructor_without_home_witness :
  ∃ this : instance,
    constructor (∅ : gmap string string) (VArr [VStr "drive"]) None
                (boot disk_fresh [])
    = (inr this, boot disk_fresh [])
    ∧ TOKEN_DIR this = "undefined/.credentials/"
    ∧ TOKEN_PATH this = "undefined/.credentials/googleapis.json".
Proof.
  apply (constructor_without_home (host := mem) ∅ [VStr "drive"] None
           (boot (host := mem) disk_fresh []));
    reflexivity.
Defined.

(** C2 on the disk that has a cached token. *)
Lemma authorize_cache_hit_witness :
  outcome (exec 2 sample_this disk_cached ["never read"])
  = Fulfilled (mkClient (VStr "1234.apps.googleusercontent.com") (VStr "s3cr3t")
                 (VStr "urn:ietf:wg:oauth:2.0:oob") (Some granted_token))
  ∧ forallb (λ e, negb (interactive e))
      (trace (exec 2 sample_this disk_cached ["never read"])) = true
  ∧ stdin (exec 2 sample_this disk_cached ["never read"]) = ["never read"].
Proof.
  pose proof (authorize_cache_hit (host := mem) 2 sample_this disk_cached ["never read"]
                (stringify sample_credentials) sample_credentials
                (VStr "1234.apps.googleusercontent.com") (VStr "s3cr3t")
                (VStr "urn:ietf:wg:oauth:2.0:oob")
                (stringify granted_token) granted_token) as H.
  destruct H as (Ho & _ & Hi & Hs & _).
  - vm_compute. reflexivity.
  - vm_compute. reflexivity.
  - exact sample_installed_app.
  - vm_compute. reflexivity.
  - vm_compute. reflexivity.
  - lia.
  - split_and!; assumption.
Defined.

(** C4 on the disk without a credentials file. *)
Lemma authorize_credentials_unreadable_witness :
  outcome (exec 1 sample_this disk_empty [])
  = Rejected (system_error "ENOENT" "open" "credentials.json")
  ∧ disk (exec 1 sample_this disk_empty []) = disk_empty
  ∧ forallb (λ e, negb (touches_store e)) (trace (exec 1 sample_this disk_empty []))
    = true.
Proof.
  pose proof (authorize_credentials_unreadable (host := mem) 1 sample_this disk_empty []
                (system_error "ENOENT" "open" "credentials.json")) as H.
  destruct H as (Ho & _ & Ht & Hd & _).
  - vm_compute. reflexivity.
  - lia.
  - split_and!; assumption.
Defined.

(** C5 on the disk without a cache, the user typing the code that the endpoint
    accepts. *)
Lemma authorize_cache_miss_witness :
  exchanges (trace (exec 5 sample_this disk_fresh [good_code])) = [good_code]
  ∧ outcome (exec 5 sample_this disk_fresh [good_code])
    = Fulfilled (mkClient (VStr "1234.apps.googleusercontent.com") (VStr "s3cr3t")
                   (VStr "urn:ietf:wg:oauth:2.0:oob") (Some granted_token))
  ∧ writes (trace (exec 5 sample_this disk_fresh [good_code]))
    = [("/home/ada/.credentials/googleapis.json", stringify granted_token)].
Proof.
  pose proof (authorize_cache_miss (host := mem) 5 sample_this disk_fresh good_code []
                (stringify sample_credentials) sample_credentials
                (VStr "1234.apps.googleusercontent.com") (VStr "s3cr3t")
                (VStr "urn:ietf:wg:oauth:2.0:oob")
                (system_error "ENOENT" "open" "/home/ada/.credentials/googleapis.json"))
    as H.
  destruct H as (_ & Hx & _ & Hok & _).
  - vm_compute. reflexivity.
  - vm_compute. reflexivity.
  - exact sample_installed_app.
  - vm_compute. reflexivity.
  - lia.
  - destruct (Hok granted_token
                (mkFs [("credentials.json", stringify sample_credentials)]
                      ["/home/ada/.credentials/"] false))
      as (Ho & Hw & _).
    + vm_compute. reflexivity.
    + left. vm_compute. reflexivity.
    + split_and!; assumption.
Defined.

(** C6 on the same disk, the user typing a code that the endpoint refuses. *)
Lemma authorize_exchange_fails_witness :
  outcome (exec 4 sample_this disk_fresh ["4/expired"]) = Rejected invalid_grant
  ∧ exchanges (trace (exec 4 sample_this disk_fresh ["4/expired"])) = ["4/expired"]
  ∧ disk (exec 4 sample_this disk_fresh ["4/expired"]) = disk_fresh.
Proof.
  pose proof (authorize_exchange_fails (host := mem) 4 sample_this disk_fresh
                "4/expired" []
                (stringify sample_credentials) sample_credentials
                (VStr "1234.apps.googleusercontent.com") (VStr "s3cr3t")
                (VStr "urn:ietf:wg:oauth:2.0:oob")
                (system_error "ENOENT" "open" "/home/ada/.credentials/googleapis.json")
                invalid_grant) as H.
  destruct H as (Ho & _ & Hx & _ & _ & Hd & _).
  - vm_compute. reflexivity.
  - vm_compute. reflexivity.
  - exact sample_installed_app.
  - vm_compute. reflexivity.
  - vm_compute. reflexivity.
  - lia.
  - split_and!; assumption.
Defined.

(** C7 twice: on the disk whose cache directory exists ([EEXIST], swallowed),
    and on the read-only disk ([EROFS], thrown on). *)
Lemma storeToken_mkdir_failure_witness :
  (storeToken sample_this granted_token (boot disk_cached [])).1 = inr ()
  ∧ (storeToken sample_this granted_token (boot disk_read_only [])).1
    = inl (system_error "EROFS" "mkdir" "/home/ada/.credentials/")
  ∧ writes (trace (storeToken sample_this granted_token (boot disk_read_only [])).2)
    = [].
Proof.
  pose proof (storeToken_mkdir_failure (host := mem) sample_this granted_token
                (boot (host := mem) disk_cached [])
                (system_error "EEXIST" "mkdir" "/home/ada/.credentials/")) as Hex.
  pose proof (storeToken_mkdir_failure (host := mem) sample_this granted_token
                (boot (host := mem) disk_read_only [])
                (system_error "EROFS" "mkdir" "/home/ada/.credentials/")) as Hro.
  destruct Hex as [Hex _]; [vm_compute; reflexivity|].
  destruct Hro as [_ Hro]; [vm_compute; reflexivity|].
  rewrite Hex by reflexivity.
  rewrite Hro by (vm_compute; discriminate).
  split_and!; reflexivity.
Defined.

(** C8 as stated fails on a successful run: the user types the good code on
    the disk without a cache, the token is granted and stored, and the log
    line is the event before [resolve], two events before the completion of
    the write. *)
Lemma authorize_logs_before_write_completes :
  outcome (exec 5 sample_this disk_fresh [good_code])
  = Fulfilled (mkClient (VStr "1234.apps.googleusercontent.com") (VStr "s3cr3t")
                 (VStr "urn:ietf:wg:oauth:2.0:oob") (Some granted_token))
  ∧ position (is_stored_log sample_this)
      (trace (exec 5 sample_this disk_fresh [good_code])) = Some 9
  ∧ position (is_write_done (TOKEN_PATH sample_this))
      (trace (exec 5 sample_this disk_fresh [good_code])) = Some 11
  ∧ trace (exec 5 sample_this disk_fresh [good_code]) !! 11
    = Some (WriteFileDone "/home/ada/.credentials/googleapis.json" None)
  ∧ ¬ logged_after_write sample_this
        (trace (exec 5 sample_this disk_fresh [good_code])).
Proof.
  split_and!; [vm_compute; reflexivity..|].
  intros (i & j & Hi & Hj & Hlt).
  vm_compute in Hi, Hj.
  injection Hi as <-. injection Hj as <-. lia.
Qed.

(** C8 as the code has it, on the fresh disk. *)
Lemma storeToken_logs_before_completion_witness :
  ∃ st' : state,
    storeToken sample_this granted_token (boot disk_fresh []) = (inr (), st')
    ∧ trace st' =
        [MkdirSync "/home/ada/.credentials/";
         WriteFile "/home/ada/.credentials/googleapis.json" (stringify granted_token);
         ConsoleLog [LStr "Token stored to /home/ada/.credentials/googleapis.json"]]
    ∧ queue st' =
        [WriteToken "/home/ada/.credentials/googleapis.json" (stringify granted_token)].
Proof.
  eexists.
  assert (storeToken sample_this granted_token (boot disk_fresh [])
          = (inr (), (storeToken sample_this granted_token (boot disk_fresh [])).2))
    as Hs by reflexivity.
  split; [exact Hs|].
  destruct (storeToken_logs_before_completion (host := mem) sample_this granted_token
              (boot (host := mem) disk_fresh []) _ Hs) as (Ht & Hq & _).
  split; [exact Ht | exact Hq].
Defined.

(** C9 on the disk whose cache file is a truncated object. *)
Lemma authorize_corrupt_cache_witness :
  outcome (exec 2 sample_this disk_corrupt [good_code]) = Pending
  ∧ trace (exec 2 sample_this disk_corrupt [good_code]) =
      [ReadFile "credentials.json";
       ReadFile "/home/ada/.credentials/googleapis.json";
       CallResolve WithPromise;
       Uncaught (SyntaxError "{ access_token: ")]
  ∧ stdin (exec 2 sample_this disk_corrupt [good_code]) = [good_code].
Proof.
  pose proof (authorize_corrupt_cache (host := mem) 2 sample_this disk_corrupt
                [good_code]
                (stringify sample_credentials) sample_credentials
                (VStr "1234.apps.googleusercontent.com") (VStr "s3cr3t")
                (VStr "urn:ietf:wg:oauth:2.0:oob")
                "{ access_token: " (SyntaxError "{ access_token: ")) as H.
  destruct H as (Ho & Ht & _ & _ & Hs & _).
  - vm_compute. reflexivity.
  - vm_compute. reflexivity.
  - exact sample_installed_app.
  - vm_compute. reflexivity.
  - vm_compute. reflexivity.
  - lia.
  - split_and!; assumption.
Defined.

(** *** The other ways through, on the in-memory host *)

Lemma sample_miss :
  fs_readFile disk_fresh (TOKEN_PATH sample_this)
  = inl (system_error "ENOENT" "open" "/home/ada/.credentials/googleapis.json").
Proof. vm_compute. reflexivity. Qed.


(** X4 on the disk whose credentials file is a line of text. *)
Lemma authorize_credentials_not_json_witness :
  outcome (exec 1 sample_this disk_not_json []) = Pending
  ∧ trace (exec 1 sample_this disk_not_json [])
    = [ReadFile "credentials.json"; Uncaught (SyntaxError "client_id=1234")].
Proof.
  destruct (authorize_credentials_not_json (host := mem) 1 sample_this
              disk_not_json [] "client_id=1234" (SyntaxError "client_id=1234"))
    as (Ho & Ht & _).
  - vm_compute. reflexivity.
  - vm_compute. reflexivity.
  - lia.
  - split; assumption.
Defined.

(** X5 on the disk whose credentials file is the empty object. *)
Lemma authorize_credentials_shape_error_witness :
  ∃ p : string,
    trace (exec 1 sample_this disk_no_installed [])
      = [ReadFile "credentials.json"; Uncaught (TypeError p)]
    ∧ outcome (exec 1 sample_this disk_no_installed []) = Pending.
Proof.
  destruct (authorize_credentials_shape_error (host := mem) 1 sample_this
              disk_no_installed [] "{}" (VObj []))
    as (p & Ht & Ho & _).
  - vm_compute. reflexivity.
  - vm_compute. reflexivity.
  - intros cid csec uri (inst & uris & Hi & Hs & _).
    cbn in Hi. injection Hi as <-. discriminate Hs.
  - lia.
  - exists p. split; assumption.
Defined.

(** X6 on the disk whose credentials hold an empty [redirect_uris] only. *)
Lemma authorize_accepts_partial_credentials_witness :
  outcome (exec 2 sample_this disk_bare [])
  = Fulfilled (mkClient VUndefined VUndefined VUndefined (Some granted_token)).
Proof.
  apply (authorize_accepts_partial_credentials (host := mem) 2 sample_this
           disk_bare [] (stringify bare_credentials)
           [("installed", VObj [("redirect_uris", VArr [])])]
           [("redirect_uris", VArr [])] []
           (stringify granted_token) granted_token).
  - vm_compute. reflexivity.
  - vm_compute. reflexivity.
  - reflexivity.
  - reflexivity.
  - vm_compute. reflexivity.
  - vm_compute. reflexivity.
  - lia.
Defined.


(** X8 on the read-only disk: the token is granted and cannot be stored. *)
Lemma authorize_store_failure_witness :
  outcome (exec 4 sample_this disk_read_only [good_code]) = Pending
  ∧ heap (exec 4 sample_this disk_read_only [good_code])
    = Some (mkClient (VStr "1234.apps.googleusercontent.com") (VStr "s3cr3t")
              (VStr "urn:ietf:wg:oauth:2.0:oob") (Some granted_token))
  ∧ writes (trace (exec 4 sample_this disk_read_only [good_code])) = [].
Proof.
  destruct (authorize_store_failure (host := mem) 4 sample_this disk_read_only
              good_code [] (stringify sample_credentials) sample_credentials
              (VStr "1234.apps.googleusercontent.com") (VStr "s3cr3t")
              (VStr "urn:ietf:wg:oauth:2.0:oob")
              (system_error "ENOENT" "open" "/home/ada/.credentials/googleapis.json")
              granted_token
              (system_error "EROFS" "mkdir" "/home/ada/.credentials/"))
    as (Ho & _ & _ & Hh & Hw & _).
  - vm_compute. reflexivity.
  - vm_compute. reflexivity.
  - exact sample_installed_app.
  - vm_compute. reflexivity.
  - vm_compute. reflexivity.
  - vm_compute. reflexivity.
  - vm_compute. discriminate.
  - lia.
  - split_and!; assumption.
Defined.

(** X9 on the disk where the cache path is a directory: the cache read
    fails, the cache directory exists, and the write fails. *)
Lemma authorize_write_failure_witness :
  outcome (exec 5 sample_this disk_cache_is_dir [good_code])
  = Fulfilled (mkClient (VStr "1234.apps.googleusercontent.com") (VStr "s3cr3t")
                 (VStr "urn:ietf:wg:oauth:2.0:oob") (Some granted_token))
  ∧ last (trace (exec 5 sample_this disk_cache_is_dir [good_code]))
    = Some (Uncaught (system_error "EISDIR" "open"
                        "/home/ada/.credentials/googleapis.json")).
Proof.
  destruct (authorize_write_failure (host := mem) 5 sample_this disk_cache_is_dir
              good_code [] (stringify sample_credentials) sample_credentials
              (VStr "1234.apps.googleusercontent.com") (VStr "s3cr3t")
              (VStr "urn:ietf:wg:oauth:2.0:oob")
              (system_error "EISDIR" "read" "/home/ada/.credentials/googleapis.json")
              granted_token disk_cache_is_dir
              (system_error "EISDIR" "open" "/home/ada/.credentials/googleapis.json"))
    as (Ho & before & Ht).
  - vm_compute. reflexivity.
  - vm_compute. reflexivity.
  - exact sample_installed_app.
  - vm_compute. reflexivity.
  - vm_compute. reflexivity.
  - right. eexists. split_and!; [vm_compute; reflexivity|reflexivity..].
  - vm_compute. reflexivity.
  - lia.
  - split; [exact Ho|]. rewrite Ht. rewrite last_app. reflexivity.
Defined.

(** X10 on the disk without a cache: the first call asks for the code, the
    second, on the disk the first one left, does not. *)
Lemma authorize_again_hits_cache_witness :
  outcome (exec 5 sample_this disk_fresh [good_code])
  = outcome (exec 2 sample_this
               (disk (exec 5 sample_this disk_fresh [good_code])) [])
  ∧ forallb (λ e, negb (interactive e))
      (trace (exec 2 sample_this
                (disk (exec 5 sample_this disk_fresh [good_code])) []))
    = true.
Proof.
  destruct (authorize_again_hits_cache (host := mem) 5 2 sample_this disk_fresh
              good_code [] [] (stringify sample_credentials) sample_credentials
              (VStr "1234.apps.googleusercontent.com") (VStr "s3cr3t")
              (VStr "urn:ietf:wg:oauth:2.0:oob")
              (system_error "ENOENT" "open" "/home/ada/.credentials/googleapis.json")
              granted_token
              (mkFs [("credentials.json", stringify sample_credentials)]
                    ["/home/ada/.credentials/"] false))
    as (H1 & H2 & Hi & _).
  - vm_compute. reflexivity.
  - vm_compute. reflexivity.
  - exact sample_installed_app.
  - exact sample_miss.
  - vm_compute. reflexivity.
  - left. vm_compute. reflexivity.
  - vm_compute. reflexivity.
  - vm_compute. reflexivity.
  - vm_compute. reflexivity.
  - lia.
  - lia.
  - split; [by rewrite H1, H2|exact Hi].
Defined.

(** X16 on the disk that has a cached token. *)
Lemma authorize_leaves_disk_witness :
  disk (exec 2 sample_this disk_cached []) = disk_cached.
Proof.
  apply (authorize_leaves_disk (host := mem) 2 sample_this disk_cached []).
  vm_compute. reflexivity.
Defined.
